(** * PostsPage: the CRUD view-state controller of the posts page

    A shallow embedding of [PostsPage] (posts-page.component.ts), of the
    [Post] model (post.model.ts) and of the way the component uses
    [PostsService] (posts.service.ts), followed by the properties of the
    controller that the specification states.

    Modelling conventions.
    - A JavaScript [number] that holds an identifier is an integer of [Z].
      [Math.max] and [===] are exact on it; [x + 1] rounds the exact sum to
      the nearest double ([JS.Number_add]), which changes nothing as long
      as the sum is at most 2^53; [toString()] is the decimal text, which
      is what JavaScript prints for a safe integer (magnitude below 2^53).
      Statements that depend on the sum or on the text say so in a
      hypothesis ([Safe], [SafeIds]).
    - A JavaScript string is a [string]; a character is the code unit of the
      same value, U+0000 to U+00FF.  [toLowerCase], [trim] and [includes]
      are written out for that range.
    - A signal is the field of the same name in the record [State];
      [sig.set v] is the setter [set_sig v] and [sig()] the projection.
    - An [Observable] returned by [HttpClient] delivers either one [next]
      followed by [complete], or one [error] and nothing else.
    - A method that starts a remote call takes the way the call ends as an
      argument and runs the callbacks it subscribed at once: an operation is
      followed to its completion before the next one starts. *)

From Stdlib Require Import ZArith String Ascii List Bool Lia DecimalString.
From Stdlib Require Import DecimalPos DecimalZ.
From stdpp Require Import base list.

Open Scope string_scope.
Open Scope Z_scope.

(** ** JavaScript built-ins used by the component *)

Module JS.

(** [String.prototype.toLowerCase] on one code unit: A-Z, and the
    upper-case letters of U+00C0..U+00DE (all but the sign U+00D7), move
    up by 32. *)
Definition toLowerCase_char (c : ascii) : ascii :=
  let n := N_of_ascii c in
  if ((65 <=? n) && (n <=? 90))%N then ascii_of_N (n + 32)
  else if ((192 <=? n) && (n <=? 222) && negb (n =? 215))%N
       then ascii_of_N (n + 32)
       else c.

(** [s.toLowerCase()] for a text whose code units are all in
    U+0000..U+00FF, where the mapping goes character by character.  Text
    beyond that range (where the mapping can depend on the neighbours, as
    for a final sigma) is outside the strings of this development. *)
Fixpoint toLowerCase (s : string) : string :=
  match s with
  | EmptyString => EmptyString
  | String c s' => String (toLowerCase_char c) (toLowerCase s')
  end.

(** White space and line terminators that [trim] strips: TAB, LF, VT, FF,
    CR, SPACE and NO-BREAK SPACE. *)
Definition isWhiteSpace (c : ascii) : bool :=
  let n := N_of_ascii c in
  (((9 <=? n) && (n <=? 13)) || (n =? 32) || (n =? 160))%N.

Fixpoint trimStart (s : string) : string :=
  match s with
  | EmptyString => EmptyString
  | String c s' => if isWhiteSpace c then trimStart s' else s
  end.

Fixpoint trimEnd (s : string) : string :=
  match s with
  | EmptyString => EmptyString
  | String c s' =>
      match trimEnd s' with
      | EmptyString => if isWhiteSpace c then EmptyString
                       else String c EmptyString
      | r => String c r
      end
  end.

Definition trim (s : string) : string := trimEnd (trimStart s).

(** Truthiness of a string: only the empty string is falsy. *)
Definition truthy (s : string) : bool :=
  match s with
  | EmptyString => false
  | String _ _ => true
  end.

(** [s.includes(t)]: [t] occurs in [s] at some position. *)
Fixpoint includes (s t : string) : bool :=
  String.prefix t s ||
  match s with
  | EmptyString => false
  | String _ s' => includes s' t
  end.

(** [n.toString()] of an integer: decimal digits, [-] before a negative
    one.  This is the text JavaScript gives for a safe integer (magnitude
    below 2^53); larger numbers are printed from their shortest digits, in
    exponent form from 10^21 on, and are outside this definition. *)
Definition Number_toString (n : Z) : string :=
  NilZero.string_of_int (Z.to_int n).

(** [Math.max(...spread, last)]: the largest of the arguments; the call of
    the component always passes one argument after the spread ones. *)
Definition Math_max (spread : list Z) (last : Z) : Z :=
  fold_right Z.max last spread.

(** The double nearest to an integer (IEEE 754 binary64, ties to the even
    significand): an integer of magnitude below 2^53 is a double; a larger
    one keeps its 53 leading bits, rounded.  Magnitudes from 2^1024 on,
    which round to Infinity, are outside this definition. *)
Definition Number_round (z : Z) : Z :=
  let a := Z.abs z in
  if a <? 2 ^ 53 then z
  else
    let e := Z.log2 a - 52 in
    let q := a / 2 ^ e in
    let r := a mod 2 ^ e in
    let half := 2 ^ (e - 1) in
    let q' := if (half <? r) || ((r =? half) && Z.odd q) then q + 1 else q in
    Z.sgn z * (q' * 2 ^ e).

(** [x + y] on numbers that hold integers: the exact sum, rounded. *)
Definition Number_add (x y : Z) : Z := Number_round (x + y).

End JS.

(** ** The data model (post.model.ts) *)

(** [interface Post { id?: number; userId: number; title: string;
    body: string }]: an absent [id] is [None]. *)
Record Post : Type := mkPost {
  id : option Z;
  userId : Z;
  title : string;
  body : string
}.

(** [p.id || 0]: an absent identifier, and the identifier 0, give 0. *)
Definition id_or_0 (p : Post) : Z :=
  match id p with
  | Some n => if n =? 0 then 0 else n
  | None => 0
  end.

(** [a === b] on [number | undefined]. *)
Definition strict_eq (a b : option Z) : bool :=
  match a, b with
  | Some x, Some y => x =? y
  | None, None => true
  | _, _ => false
  end.

(** ** Status messages

    Every text the component writes to [message], one constructor per
    template literal, with the values it interpolates. *)
Inductive Message : Type :=
| PostsLoaded (n : nat)          (* `✅ ${data.length} posts cargados exitosamente` *)
| LoadError                      (* '❌ Error al cargar posts' *)
| FormIncomplete                 (* '⚠️ Complete todos los campos correctamente' *)
| PostCreated (t : string)       (* `✅ Post "${created.title}" creado exitosamente` *)
| CreateError                    (* '❌ Error al crear el post' *)
| PostUpdated                    (* `✅ Post actualizado exitosamente` *)
| UpdateError                    (* '❌ Error al actualizar el post' *)
| PostDeleted                    (* `✅ Post eliminado exitosamente` *)
| DeleteError                    (* '❌ Error al eliminar el post' *)
| Editing (t : string)           (* `📝 Editando: "${post.title}"` *)
| Found (n : nat) (term : string)(* `🔍 ${this.posts().length} posts encontrados para "${term}"` *).

(** The kind of a message, read off the sign its text starts with. *)
Inductive Kind : Type := Success | Failure | Warning | Information.

Definition kind (m : Message) : Kind :=
  match m with
  | PostsLoaded _ | PostCreated _ | PostUpdated | PostDeleted => Success
  | LoadError | CreateError | UpdateError | DeleteError => Failure
  | FormIncomplete => Warning
  | Editing _ | Found _ _ => Information
  end.

(** ** Reactive forms: the part of Angular's forms the component uses *)

Module Forms.

(** A [FormControl<string | null>]: its value ([null] is [None]) and its
    touched flag. *)
Record FormControl : Type := mkControl {
  value : option string;
  touched : bool
}.

(** A validator returns [true] when it reports an error. *)
Definition Validator : Type := option string -> bool.

Module Validators.
(** [Validators.required]: [null] and the empty string are errors. *)
Definition required : Validator := fun v =>
  match v with
  | None => true
  | Some s => Nat.eqb (String.length s) 0
  end.

(** [Validators.maxLength(n)]: a value longer than [n] is an error; a
    [null] value has no length and passes. *)
Definition maxLength (n : nat) : Validator := fun v =>
  match v with
  | None => false
  | Some s => Nat.ltb n (String.length s)
  end.
End Validators.

Definition control_invalid (vs : list Validator) (c : FormControl) : bool :=
  existsb (fun v => v (value c)) vs.

(** [control.reset()]: the value becomes [null], the control untouched. *)
Definition control_reset (c : FormControl) : FormControl :=
  {| value := None; touched := false |}.

Definition control_setValue (v : option string) (c : FormControl)
  : FormControl :=
  {| value := v; touched := touched c |}.

Definition control_markAsTouched (c : FormControl) : FormControl :=
  {| value := value c; touched := true |}.

(** [x!] on a form value: a type assertion, the value as it is; under
    [Validators.required] a valid control holds a string. *)
Definition nonNull (v : option string) : string :=
  match v with
  | Some s => s
  | None => EmptyString
  end.

End Forms.

Import Forms.

(** [this.fb.group({ title: ['', [required, maxLength(100)]],
                     body:  ['', [required, maxLength(500)]] })] *)
Record PostForm : Type := mkForm {
  title_control : FormControl;
  body_control : FormControl
}.

Definition title_validators : list Validator :=
  [Validators.required; Validators.maxLength 100].

Definition body_validators : list Validator :=
  [Validators.required; Validators.maxLength 500].

Definition initial_form : PostForm :=
  {| title_control := {| value := Some EmptyString; touched := false |};
     body_control := {| value := Some EmptyString; touched := false |} |}.

(** [form.invalid]: some control fails one of its validators. *)
Definition form_invalid (f : PostForm) : bool :=
  control_invalid title_validators (title_control f) ||
  control_invalid body_validators (body_control f).

Definition form_markAllAsTouched (f : PostForm) : PostForm :=
  {| title_control := control_markAsTouched (title_control f);
     body_control := control_markAsTouched (body_control f) |}.

Definition form_reset (f : PostForm) : PostForm :=
  {| title_control := control_reset (title_control f);
     body_control := control_reset (body_control f) |}.

(** [form.patchValue({ title: t, body: b })] *)
Definition form_patchValue (t b : string) (f : PostForm) : PostForm :=
  {| title_control := control_setValue (Some t) (title_control f);
     body_control := control_setValue (Some b) (body_control f) |}.

(** ** PostsService (posts.service.ts): the HTTP request of each method *)

Module PostsService.

Inductive HttpRequest : Type :=
| GET (url : string)
| POST (url : string) (payload : Post)
| PUT (url : string) (payload : Post)
| DELETE (url : string).

Definition apiUrl : string := "https://jsonplaceholder.typicode.com/posts".

(** [`${this.apiUrl}/${id}`]; the component passes [post.id!], which is
    [undefined] at run time for a post without identifier. *)
Definition resource (i : option Z) : string :=
  apiUrl ++ "/" ++
  match i with
  | Some n => JS.Number_toString n
  | None => "undefined"
  end.

Definition getAll : HttpRequest := GET apiUrl.
Definition getById (i : Z) : HttpRequest := GET (resource (Some i)).
Definition create (post : Post) : HttpRequest := POST apiUrl post.
Definition update (i : option Z) (post : Post) : HttpRequest :=
  PUT (resource i) post.
Definition delete (i : option Z) : HttpRequest := DELETE (resource i).

End PostsService.

(** ** Observables and observers *)

Module Rx.

(** How the HTTP exchange behind an observable stands when the method that
    subscribed returns: ended with a response, ended with an error, or not
    ended yet. *)
Inductive Outcome (T : Type) : Type :=
| Succeeds (v : T)
| Fails
| Pending.
Arguments Succeeds {T} v.
Arguments Fails {T}.
Arguments Pending {T}.

Inductive Notification (T : Type) : Type :=
| Next (v : T)
| Error
| Complete.
Arguments Next {T} v.
Arguments Error {T}.
Arguments Complete {T}.

(** The notifications of an [HttpClient] observable: the response and the
    completion, or the error alone; none while the exchange goes on. *)
Definition notifications {T : Type} (o : Outcome T) : list (Notification T) :=
  match o with
  | Succeeds v => [Next v; Complete]
  | Fails => [Error]
  | Pending => []
  end.

(** The object passed to [subscribe], its callbacks acting on a state. *)
Record Observer (S T : Type) : Type := mkObserver {
  next : T -> S -> S;
  error : S -> S;
  complete : S -> S
}.
Arguments mkObserver {S T} next error complete.
Arguments next {S T} o v s.
Arguments error {S T} o s.
Arguments complete {S T} o s.

Definition notify {S T : Type} (obs : Observer S T) (s : S)
  (n : Notification T) : S :=
  match n with
  | Next v => next obs v s
  | Error => error obs s
  | Complete => complete obs s
  end.

Definition subscribe {S T : Type} (o : Outcome T) (obs : Observer S T)
  (s : S) : S :=
  fold_left (notify obs) (notifications o) s.

End Rx.

Import Rx.

(** ** The component state *)

(** The signals and the form of [PostsPage], and the requests the component
    has made through [postsSrv] so far (oldest first). *)
Record State : Type := mkState {
  allPosts : list Post;
  posts : list Post;
  form : PostForm;
  searchTerm : string;
  editingPost : option Post;
  loading : bool;
  message : option Message;
  requests : list PostsService.HttpRequest
}.

Definition set_allPosts (v : list Post) (s : State) : State :=
  mkState v (posts s) (form s) (searchTerm s) (editingPost s) (loading s)
          (message s) (requests s).

Definition set_posts (v : list Post) (s : State) : State :=
  mkState (allPosts s) v (form s) (searchTerm s) (editingPost s) (loading s)
          (message s) (requests s).

Definition set_form (v : PostForm) (s : State) : State :=
  mkState (allPosts s) (posts s) v (searchTerm s) (editingPost s) (loading s)
          (message s) (requests s).

Definition set_searchTerm (v : string) (s : State) : State :=
  mkState (allPosts s) (posts s) (form s) v (editingPost s) (loading s)
          (message s) (requests s).

Definition set_editingPost (v : option Post) (s : State) : State :=
  mkState (allPosts s) (posts s) (form s) (searchTerm s) v (loading s)
          (message s) (requests s).

Definition set_loading (v : bool) (s : State) : State :=
  mkState (allPosts s) (posts s) (form s) (searchTerm s) (editingPost s) v
          (message s) (requests s).

Definition set_message (v : option Message) (s : State) : State :=
  mkState (allPosts s) (posts s) (form s) (searchTerm s) (editingPost s)
          (loading s) v (requests s).

(** Calling a method of [postsSrv] and subscribing to what it returns sends
    the request. *)
Definition send (r : PostsService.HttpRequest) (s : State) : State :=
  mkState (allPosts s) (posts s) (form s) (searchTerm s) (editingPost s)
          (loading s) (message s) (requests s ++ [r]).

(** The fields as the class initialises them. *)
Definition initial : State :=
  {| allPosts := []; posts := []; form := initial_form;
     searchTerm := EmptyString; editingPost := None; loading := false;
     message := None; requests := [] |}.

(** Statements of a method body, run one after the other. *)
Definition andThen (f g : State -> State) : State -> State :=
  fun s => g (f s).
Infix ">>>" := andThen (at level 62, right associativity).

(** ** The methods of [PostsPage] *)

(** The callback of [allPosts().filter(...)] in [applyCurrentFilter]. *)
Definition filter_callback (term : string) (post : Post) : bool :=
  JS.includes (JS.toLowerCase (title post)) (JS.toLowerCase term) ||
  JS.includes (JS.toLowerCase (body post)) (JS.toLowerCase term) ||
  match id post with
  | Some n => JS.includes (JS.Number_toString n) term
  | None => false
  end ||
  JS.includes (JS.Number_toString (userId post)) term.

Definition applyCurrentFilter : State -> State := fun s =>
  let term := searchTerm s in
  if negb (JS.truthy (JS.trim term)) then set_posts (allPosts s) s
  else
    let filtered := List.filter (filter_callback term) (allPosts s) in
    set_posts filtered s.

Definition generateNewId (s : State) : Z :=
  let allIds := map id_or_0 (allPosts s) in
  JS.Number_add (JS.Math_max allIds 100) 1.

Definition resetForm : State -> State :=
  (fun s => set_form (form_reset (form s)) s) >>>
  set_editingPost None >>>
  set_message None.

Definition cancelEdit : State -> State := resetForm.

(** The observer that [loadAll] subscribes. *)
Definition loadAll_observer : Observer State (list Post) :=
  {| next := fun data =>
       set_allPosts data >>>
       set_posts data >>>
       set_message (Some (PostsLoaded (length data)));
     error := set_message (Some LoadError);
     complete := set_loading false |}.

(** [loadAll()], the [getAll] request ending as [http] says. *)
Definition loadAll (http : Outcome (list Post)) : State -> State :=
  set_loading true >>>
  set_message None >>>
  send PostsService.getAll >>>
  subscribe http loadAll_observer.

Definition ngOnInit (http : Outcome (list Post)) : State -> State :=
  loadAll http.

(** The observer that [create] subscribes. *)
Definition create_observer : Observer State Post :=
  {| next := fun created =>
       (fun s =>
          let newPostWithId :=
            {| id := Some (generateNewId s);
               userId := userId created;
               title := title created;
               body := body created |} in
          let updatedPosts := newPostWithId :: allPosts s in
          set_allPosts updatedPosts s) >>>
       applyCurrentFilter >>>
       set_message (Some (PostCreated (title created))) >>>
       resetForm;
     error := set_message (Some CreateError);
     complete := set_loading false |}.

(** [create()], the [create] request (if one is made) ending as [http]
    says. *)
Definition create (http : Outcome Post) : State -> State := fun s =>
  if form_invalid (form s) then
    ((fun s => set_form (form_markAllAsTouched (form s)) s) >>>
     set_message (Some FormIncomplete)) s
  else
    let newPost :=
      {| id := None;
         userId := 1;
         title := nonNull (value (title_control (form s)));
         body := nonNull (value (body_control (form s))) |} in
    (set_loading true >>>
     send (PostsService.create newPost) >>>
     subscribe http create_observer) s.

(** The observer that [update] subscribes; its callbacks close over [post]
    and [updatedPost]. *)
Definition update_observer (post updatedPost : Post) : Observer State Post :=
  {| next := fun _ =>
       (fun s =>
          let currentPosts := allPosts s in
          let updatedPosts :=
            map (fun p => if strict_eq (id p) (id post)
                          then updatedPost else p) currentPosts in
          set_allPosts updatedPosts s) >>>
       applyCurrentFilter >>>
       set_message (Some PostUpdated) >>>
       resetForm;
     error := set_message (Some UpdateError);
     complete := set_loading false |}.

(** [update()], the [update] request (if one is made) ending as [http]
    says. *)
Definition update (http : Outcome Post) : State -> State := fun s =>
  match editingPost s with
  | None => s
  | Some post =>
      if form_invalid (form s) then s
      else
        let updatedPost :=
          {| id := id post;
             userId := userId post;
             title := nonNull (value (title_control (form s)));
             body := nonNull (value (body_control (form s))) |} in
        (set_loading true >>>
         send (PostsService.update (id post) updatedPost) >>>
         subscribe http (update_observer post updatedPost)) s
  end.

(** The observer that [delete] subscribes; its callbacks close over
    [post]. *)
Definition delete_observer (post : Post) : Observer State unit :=
  {| next := fun _ =>
       (fun s =>
          let currentPosts := allPosts s in
          let filteredPosts :=
            List.filter (fun p => negb (strict_eq (id p) (id post)))
                        currentPosts in
          set_allPosts filteredPosts s) >>>
       applyCurrentFilter >>>
       set_message (Some PostDeleted);
     error := set_message (Some DeleteError);
     complete := set_loading false |}.

(** [delete(post)]: [confirmed] is the answer of [confirm(...)], and the
    [delete] request (if one is made) ends as [http] says. *)
Definition delete (post : Post) (confirmed : bool) (http : Outcome unit)
  : State -> State := fun s =>
  if negb confirmed then s
  else
    (set_loading true >>>
     send (PostsService.delete (id post)) >>>
     subscribe http (delete_observer post)) s.

Definition editPost (post : Post) : State -> State :=
  set_editingPost (Some post) >>>
  (fun s => set_form (form_patchValue (title post) (body post) (form s)) s) >>>
  set_message (Some (Editing (title post))).

(** [search(event)]: [input] is [event.target.value]. *)
Definition search (input : string) : State -> State :=
  let term := JS.toLowerCase input in
  set_searchTerm term >>>
  applyCurrentFilter >>>
  (fun s =>
     if JS.truthy (JS.trim term)
     then set_message (Some (Found (length (posts s)) term)) s
     else set_message None s).

Definition clearSearch : State -> State :=
  set_searchTerm EmptyString >>>
  applyCurrentFilter >>>
  set_message None.

Definition isEditing (s : State) : bool :=
  match editingPost s with
  | Some _ => true
  | None => false
  end.

(** ** Operations of the controller as the user triggers them *)

(** One operation: the user's action together with how the remote call it
    starts (if any) ends. *)
Inductive Action : Type :=
| OpLoad (http : Outcome (list Post))
| OpSubmitCreate (http : Outcome Post)
| OpSubmitUpdate (http : Outcome Post)
| OpDelete (post : Post) (confirmed : bool) (http : Outcome unit)
| OpSearch (input : string)
| OpClearSearch
| OpBeginEdit (post : Post)
| OpReset
| OpTypeTitle (text : string)
| OpTypeBody (text : string).

(** Modelled from the spec: the template posts-page.component.html, which
    binds the inputs to the form, is not among the sources; the UI surface
    of the spec is "a form with title/body inputs", so typing into an input
    stores the text typed as the value of its control. *)
Definition typeInto (text : string) (c : FormControl) : FormControl :=
  control_setValue (Some text) c.

Definition perform (a : Action) : State -> State :=
  match a with
  | OpLoad http => loadAll http
  | OpSubmitCreate http => create http
  | OpSubmitUpdate http => update http
  | OpDelete post confirmed http => delete post confirmed http
  | OpSearch input => search input
  | OpClearSearch => clearSearch
  | OpBeginEdit post => editPost post
  | OpReset => cancelEdit
  | OpTypeTitle text => fun s =>
      set_form {| title_control := typeInto text (title_control (form s));
                  body_control := body_control (form s) |} s
  | OpTypeBody text => fun s =>
      set_form {| title_control := title_control (form s);
                  body_control := typeInto text (body_control (form s)) |} s
  end.

(** What happens to the component: the user starts an operation, or a
    callback of a call that was left pending is run; nothing orders the
    callbacks of different calls. *)
Inductive Event : Type :=
| UserDoes (a : Action)
| LoadAllNotifies (n : Notification (list Post))
| CreateNotifies (n : Notification Post)
| UpdateNotifies (post updatedPost : Post) (n : Notification Post)
| DeleteNotifies (post : Post) (n : Notification unit).

Definition handle (e : Event) : State -> State :=
  match e with
  | UserDoes a => perform a
  | LoadAllNotifies n => fun s => notify loadAll_observer s n
  | CreateNotifies n => fun s => notify create_observer s n
  | UpdateNotifies post updatedPost n => fun s =>
      notify (update_observer post updatedPost) s n
  | DeleteNotifies post n => fun s => notify (delete_observer post) s n
  end.

(** The state after a session: the events in turn, from the state [s]. *)
Definition run (events : list Event) (s : State) : State :=
  fold_left (fun s e => handle e s) events s.

(** ** The vocabulary of the specification *)

(** [t] occurs in [s]. *)
Definition Substring (t s : string) : Prop :=
  exists u v : string, s = u ++ t ++ v.

(** A blank term: empty, or white space only. *)
Definition Blank (s : string) : Prop :=
  Forall (fun c => JS.isWhiteSpace c = true) (list_ascii_of_string s).

(** An entry matches a term: the four alternatives of the filter. *)
Definition Matches (term : string) (p : Post) : Prop :=
  Substring (JS.toLowerCase term) (JS.toLowerCase (title p)) \/
  Substring (JS.toLowerCase term) (JS.toLowerCase (body p)) \/
  (exists n : Z, id p = Some n /\ Substring term (JS.Number_toString n)) \/
  Substring term (JS.Number_toString (userId p)).

(** [Retains P l l']: [l'] is [l] with exactly the elements that satisfy [P]
    kept, each where it was. *)
Inductive Retains {A : Type} (P : A -> Prop) : list A -> list A -> Prop :=
| Retains_nil : Retains P [] []
| Retains_keep x l l' : P x -> Retains P l l' -> Retains P (x :: l) (x :: l')
| Retains_drop x l l' : ~ P x -> Retains P l l' -> Retains P (x :: l) l'.

(** The form holds the valid input [t], [b]: both present, neither empty,
    each within its length bound. *)
Definition ValidInput (f : PostForm) (t b : string) : Prop :=
  value (title_control f) = Some t /\
  value (body_control f) = Some b /\
  (0 < String.length t <= 100)%nat /\
  (0 < String.length b <= 500)%nat.

(** A field is missing: no value, or the empty text. *)
Definition Missing (v : option string) : Prop :=
  v = None \/ v = Some EmptyString.

(** A field is over the length bound [n]. *)
Definition TooLong (n : nat) (v : option string) : Prop :=
  exists s : string, v = Some s /\ (n < String.length s)%nat.

(** The form is invalid: title or body missing or over its length bound. *)
Definition InvalidInput (f : PostForm) : Prop :=
  Missing (value (title_control f)) \/ TooLong 100 (value (title_control f)) \/
  Missing (value (body_control f)) \/ TooLong 500 (value (body_control f)).

(** An absent identifier counts as 0. *)
Definition absent_as_0 (i : option Z) : Z :=
  match i with
  | Some n => n
  | None => 0
  end.

(** [m] is the maximum of the numbers [xs]. *)
Definition MaxOf (xs : list Z) (m : Z) : Prop :=
  In m xs /\ forall x : Z, In x xs -> x <= m.

(** A safe integer ([Number.isSafeInteger]): magnitude at most 2^53 - 1. *)
Definition Safe (n : Z) : Prop := - 2 ^ 53 < n < 2 ^ 53.

(** The identifiers of the entries are safe integers. *)
Definition SafeIds (l : list Post) : Prop :=
  forall (p : Post) (n : Z), In p l -> id p = Some n -> Safe n.

(** The displayed list is drawn from the mirror: a sublist of it, the
    entries in the order of the mirror. *)
Definition Drawn (s : State) : Prop := sublist (posts s) (allPosts s).

(** The entry that [update] writes: identifier and owner of the entry being
    edited, title and body of the form. *)
Definition edited (post : Post) (t b : string) : Post :=
  {| id := id post; userId := userId post; title := t; body := b |}.

(** ** Sample data *)

(** The entry of the specification's filter example. *)
Definition hello : Post :=
  {| id := Some 7; userId := 3; title := "Hello"; body := "world" |}.

(** A state whose mirror is [mirror] and whose search term is [term]. *)
Definition searching (mirror : list Post) (term : string) : State :=
  set_searchTerm term (set_allPosts mirror initial).

(** An entry that has only its identifier of interest. *)
Definition numbered (n : Z) : Post :=
  {| id := Some n; userId := 1; title := "t"; body := "b" |}.

(** A session that ends with the mirror [mirror] and the texts [t] and [b]
    typed into the form. *)
Definition typed (mirror : list Post) (t b : string) : State :=
  run [UserDoes (OpLoad (Succeeds mirror)); UserDoes (OpTypeTitle t);
       UserDoes (OpTypeBody b)] initial.

(** ** Further vocabulary *)

(** [trackById(index, post)]: [post.id || index]. *)
Definition trackById (index : Z) (post : Post) : Z :=
  match id post with
  | Some n => if n =? 0 then index else n
  | None => index
  end.

(** The keys that the table gets for its rows from [trackById]. *)
Fixpoint row_keys (index : Z) (rows : list Post) : list Z :=
  match rows with
  | [] => []
  | post :: rows' => trackById index post :: row_keys (index + 1) rows'
  end.

(** No two entries of the list have the same identifier (at most one has
    none). *)
Definition DistinctIds (l : list Post) : Prop := NoDup (map id l).

(** Every identifier of the list is below [b]. *)
Definition IdsBelow (b : Z) (l : list Post) : Prop :=
  forall p : Post, In p l -> id_or_0 p < b.

(** Distinct identifiers, all below [c]. *)
Definition Tidy (c : Z) (l : list Post) : Prop :=
  DistinctIds l /\ IdsBelow c l.

(** An event as the component produces it, the remote service keeping its
    identifiers below [b]: a response to [getAll] lists entries with
    distinct identifiers below [b], and the two entries an [update]
    callback closes over have the same identifier ([updatedPost] is built
    with [id: post.id]). *)
Definition WellFormed (b : Z) (e : Event) : Prop :=
  match e with
  | UserDoes (OpLoad (Succeeds data)) => DistinctIds data /\ IdsBelow b data
  | LoadAllNotifies (Next data) => DistinctIds data /\ IdsBelow b data
  | UpdateNotifies post updatedPost _ => id updatedPost = id post
  | _ => True
  end.

(** The operations that involve no remote call. *)
Definition local (a : Action) : bool :=
  match a with
  | OpSearch _ | OpClearSearch | OpBeginEdit _ | OpReset
  | OpTypeTitle _ | OpTypeBody _ => true
  | OpLoad _ | OpSubmitCreate _ | OpSubmitUpdate _ | OpDelete _ _ _ => false
  end.

(** * Properties *)

(** ** The built-ins meet their descriptions *)

Lemma prefix_app (t s : string) :
  String.prefix t s = true <-> exists v : string, s = t ++ v.
Proof.
  revert s. induction t as [|a t IH]; intros [|b s]; simpl.
  - split; [intros _; exists EmptyString; reflexivity | intros _; reflexivity].
  - split; [intros _; exists (String b s); reflexivity | intros _; reflexivity].
  - split; [discriminate | intros [v Hv]; discriminate].
  - destruct (ascii_dec a b) as [->|Hab].
    + rewrite IH. split; intros [v Hv]; exists v; congruence.
    + split; [discriminate | intros [v Hv]; congruence].
Qed.

Lemma includes_Substring (s t : string) :
  JS.includes s t = true <-> Substring t s.
Proof.
  induction s as [|c s IH]; cbn [JS.includes];
    rewrite orb_true_iff, prefix_app.
  - split.
    + intros [[v Hv]|Hf]; [|discriminate]. exists EmptyString, v. exact Hv.
    + intros [u [v Huv]]. left. destruct u; [|discriminate].
      exists v. exact Huv.
  - rewrite IH. split.
    + intros [[v Hv]|[u [v Huv]]].
      * exists EmptyString, v. exact Hv.
      * exists (String c u), v. simpl. congruence.
    + intros [u [v Huv]]. destruct u as [|d u]; simpl in Huv.
      * left. exists v. exact Huv.
      * right. exists u, v. congruence.
Qed.

Lemma trimEnd_empty (s : string) : JS.trimEnd s = EmptyString <-> Blank s.
Proof.
  unfold Blank. induction s as [|c s IH]; simpl.
  - split; [constructor | reflexivity].
  - rewrite Forall_cons. destruct (JS.trimEnd s) eqn:E.
    + destruct (JS.isWhiteSpace c); split; try tauto; try discriminate.
      intros [Hc _]. discriminate.
    + split; [discriminate|]. intros [_ Hs]. apply IH in Hs. discriminate.
Qed.

Lemma trimStart_Blank (s : string) : Blank (JS.trimStart s) <-> Blank s.
Proof.
  unfold Blank. induction s as [|c s IH]; simpl; [tauto|].
  destruct (JS.isWhiteSpace c) eqn:E; [|simpl; tauto].
  rewrite IH, Forall_cons. tauto.
Qed.

Lemma trim_falsy_Blank (s : string) :
  JS.truthy (JS.trim s) = false <-> Blank s.
Proof.
  rewrite <- trimStart_Blank, <- trimEnd_empty. unfold JS.trim.
  destruct (JS.trimEnd (JS.trimStart s)); simpl; split; congruence.
Qed.

Lemma Math_max_MaxOf (spread : list Z) (last : Z) :
  MaxOf (last :: spread) (JS.Math_max spread last).
Proof.
  unfold MaxOf, JS.Math_max. induction spread as [|x xs [Hin Hub]]; simpl.
  - split; [left; reflexivity|]. intros x [->|[]]. lia.
  - split.
    + destruct (Z.max_spec x (fold_right Z.max last xs)) as [[_ ->]|[_ ->]].
      * destruct Hin as [?|?]; [left|right; right]; assumption.
      * right; left; reflexivity.
    + intros y [->|[->|Hy]].
      * specialize (Hub y (or_introl eq_refl)). lia.
      * lia.
      * specialize (Hub y (or_intror Hy)). lia.
Qed.

Lemma MaxOf_unique (xs : list Z) (m n : Z) : MaxOf xs m -> MaxOf xs n -> m = n.
Proof.
  intros [Hm Hmu] [Hn Hnu]. specialize (Hmu n Hn). specialize (Hnu m Hm). lia.
Qed.

Lemma id_or_0_absent (p : Post) : id_or_0 p = absent_as_0 (id p).
Proof.
  unfold id_or_0, absent_as_0. destruct (id p) as [n|]; [|reflexivity].
  destruct (Z.eqb_spec n 0); congruence.
Qed.

Lemma strict_eq_true (a b : option Z) : strict_eq a b = true <-> a = b.
Proof.
  destruct a as [x|], b as [y|]; simpl; try (split; congruence).
  rewrite Z.eqb_eq. split; congruence.
Qed.

(** ** Filtering *)

Lemma filter_Retains {A : Type} (P : A -> Prop) (f : A -> bool) (l : list A) :
  (forall x : A, f x = true <-> P x) -> Retains P l (List.filter f l).
Proof.
  intros Hf. induction l as [|x l IH]; simpl; [constructor|].
  destruct (f x) eqn:E.
  - apply Retains_keep; [apply Hf; exact E | exact IH].
  - apply Retains_drop; [rewrite <- Hf; congruence | exact IH].
Qed.

Lemma Retains_sublist {A : Type} (P : A -> Prop) (l l' : list A) :
  Retains P l l' -> sublist l' l.
Proof.
  induction 1; [constructor | apply sublist_skip | apply sublist_cons];
    assumption.
Qed.

Lemma List_filter_sublist {A : Type} (f : A -> bool) (l : list A) :
  sublist (List.filter f l) l.
Proof.
  apply (Retains_sublist (fun x => f x = true)), filter_Retains. tauto.
Qed.

Lemma filter_callback_Matches (term : string) (p : Post) :
  filter_callback term p = true <-> Matches term p.
Proof.
  unfold filter_callback, Matches.
  rewrite !orb_true_iff, !includes_Substring.
  destruct (id p) as [n|].
  - rewrite includes_Substring. split.
    + intros [[[H|H]|H]|H]; eauto 6.
    + intros [H|[H|[[m [Hm H]]|H]]]; auto.
      injection Hm as ->. auto.
  - split.
    + intros [[[H|H]|H]|H]; auto. discriminate.
    + intros [H|[H|[[m [Hm H]]|H]]]; auto. discriminate.
Qed.

(** ** Form validation *)

Lemma control_invalid_spec (n : nat) (c : FormControl) :
  control_invalid [Validators.required; Validators.maxLength n] c = true <->
  Missing (value c) \/ TooLong n (value c).
Proof.
  unfold control_invalid, Validators.required, Validators.maxLength,
    Missing, TooLong. simpl. rewrite !orb_true_iff.
  destruct (value c) as [v|].
  - rewrite Nat.eqb_eq, Nat.ltb_lt. split.
    + intros [H|[H|H]]; [|right; exists v; split; [reflexivity|exact H]
                         |discriminate].
      left; right. destruct v; [reflexivity|discriminate].
    + intros [[H|H]|[v' [H1 H2]]]; [discriminate| |].
      * injection H as ->. left. reflexivity.
      * injection H1 as ->. right; left. exact H2.
  - split; [intros _; left; left; reflexivity | intros _; left; reflexivity].
Qed.

Lemma form_invalid_InvalidInput (f : PostForm) :
  form_invalid f = true <-> InvalidInput f.
Proof.
  unfold form_invalid, InvalidInput, title_validators, body_validators.
  rewrite orb_true_iff, !control_invalid_spec. tauto.
Qed.

Lemma ValidInput_form_valid (f : PostForm) (t b : string) :
  ValidInput f t b -> form_invalid f = false.
Proof.
  intros (Ht & Hb & Hlt & Hlb).
  destruct (form_invalid f) eqn:E; [|reflexivity].
  apply form_invalid_InvalidInput in E. unfold InvalidInput in E.
  rewrite Ht, Hb in E.
  destruct E as [[E|E]|[(v & E & Hv)|[[E|E]|(v & E & Hv)]]];
    try discriminate; simplify_eq; simpl in *; lia.
Qed.

Lemma form_valid_ValidInput (f : PostForm) :
  form_invalid f = false ->
  exists t b : string, ValidInput f t b.
Proof.
  intros Hf. unfold ValidInput.
  assert (Hn : ~ InvalidInput f)
    by (rewrite <- form_invalid_InvalidInput; congruence).
  unfold InvalidInput, Missing, TooLong in Hn.
  destruct (value (title_control f)) as [t|]; [|tauto].
  destruct (value (body_control f)) as [b|]; [|tauto].
  exists t, b. repeat split; try reflexivity.
  - destruct t; [tauto | simpl; lia].
  - destruct (le_gt_dec (String.length t) 100) as [H|H]; [exact H|].
    exfalso. apply Hn. right; left. exists t. split; [reflexivity|lia].
  - destruct b; [tauto | simpl; lia].
  - destruct (le_gt_dec (String.length b) 500) as [H|H]; [exact H|].
    exfalso. apply Hn. right; right; right. exists b.
    split; [reflexivity|lia].
Qed.

(** ** The displayed list after one method *)

Lemma applyCurrentFilter_allPosts (s : State) :
  allPosts (applyCurrentFilter s) = allPosts s.
Proof.
  unfold applyCurrentFilter.
  destruct (negb (JS.truthy (JS.trim (searchTerm s)))); reflexivity.
Qed.

Lemma applyCurrentFilter_sublist (s : State) :
  sublist (posts (applyCurrentFilter s)) (allPosts (applyCurrentFilter s)).
Proof.
  rewrite applyCurrentFilter_allPosts. unfold applyCurrentFilter.
  destruct (negb (JS.truthy (JS.trim (searchTerm s)))); simpl.
  - reflexivity.
  - apply List_filter_sublist.
Qed.

(** [applyCurrentFilter] writes [posts] and nothing else. *)
Lemma applyCurrentFilter_frame (s : State) :
  applyCurrentFilter s = set_posts (posts (applyCurrentFilter s)) s.
Proof.
  unfold applyCurrentFilter.
  destruct (negb (JS.truthy (JS.trim (searchTerm s)))); reflexivity.
Qed.

Ltac method_body :=
  unfold loadAll, create, update, delete, editPost, search, clearSearch,
    cancelEdit, resetForm, subscribe, loadAll_observer, create_observer,
    update_observer, delete_observer, andThen in *;
  cbn [notifications fold_left notify next error complete] in *.

(** Replaces each [applyCurrentFilter x] of the goal by [x] with some list
    written to [posts]. *)
Ltac frame_filter :=
  repeat match goal with
         | |- context [applyCurrentFilter ?x] =>
             rewrite (applyCurrentFilter_frame x);
             generalize (posts (applyCurrentFilter x)); intro
         end.

(** ** The busy flag *)

Lemma busy_cleared_on_success (s : State) (data : list Post) (r : Post)
  (post : Post) :
  loading (loadAll (Succeeds data) s) = false /\
  (form_invalid (form s) = false ->
   loading (create (Succeeds r) s) = false) /\
  (form_invalid (form s) = false -> editingPost s = Some post ->
   loading (update (Succeeds r) s) = false) /\
  loading (delete post true (Succeeds tt) s) = false.
Proof.
  repeat split.
  - intros Hf. unfold create. rewrite Hf. reflexivity.
  - intros Hf He. unfold update. rewrite He, Hf. reflexivity.
Qed.

(** C1: the busy flag after a remote call that fails.  The flag is set
    before the call and cleared by the [complete] callback only; a failing
    call delivers [error] and never [complete].  So after a failed Load, a
    failed Delete, and a failed Submit-create or Submit-update that did
    make its call, the flag is still true, whatever the state before.  (On
    success it is cleared: [busy_cleared_on_success].) *)
Theorem busy_stays_set_on_failure (s : State) (post : Post) :
  loading (loadAll Fails s) = true /\
  loading (create Fails s) =
    (if form_invalid (form s) then loading s else true) /\
  loading (update Fails s) =
    match editingPost s with
    | Some _ => if form_invalid (form s) then loading s else true
    | None => loading s
    end /\
  loading (delete post true Fails s) = true.
Proof.
  split; [reflexivity|]. split; [|split; [|reflexivity]].
  - unfold create. destruct (form_invalid (form s)); reflexivity.
  - unfold update. destruct (editingPost s) as [e|]; [|reflexivity].
    destruct (form_invalid (form s)); reflexivity.
Qed.

(** ** Status message and reset after a successful submit *)

(** C2: after a successful Submit-create or Submit-update the form and the
    edit state are reset, and the status message is empty: the [next]
    callback writes the success message and then ends with [resetForm],
    which clears it. *)
Theorem submit_success_clears_message (s : State) (t b : string) (r : Post) :
  ValidInput (form s) t b ->
  ((exists x : State,
      create (Succeeds r) s =
        set_loading false
          (resetForm (set_message (Some (PostCreated (title r))) x))) /\
   message (create (Succeeds r) s) = None /\
   form (create (Succeeds r) s) = form_reset (form s) /\
   editingPost (create (Succeeds r) s) = None) /\
  (forall post : Post, editingPost s = Some post ->
     (exists x : State,
        update (Succeeds r) s =
          set_loading false (resetForm (set_message (Some PostUpdated) x))) /\
     message (update (Succeeds r) s) = None /\
     form (update (Succeeds r) s) = form_reset (form s) /\
     editingPost (update (Succeeds r) s) = None).
Proof.
  intros Hv. pose proof (ValidInput_form_valid _ _ _ Hv) as Hf. split.
  - unfold create. rewrite Hf. method_body.
    split; [eexists; reflexivity|]. frame_filter. repeat split.
  - intros post He. unfold update. rewrite He, Hf. method_body.
    split; [eexists; reflexivity|]. frame_filter. repeat split.
Qed.

Lemma submit_success_clears_message_witness :
  ValidInput (form (typed [] "T" "B")) "T" "B" /\
  message (create (Succeeds (mkPost (Some 101) 1 "T" "B"))
                  (typed [] "T" "B")) = None.
Proof.
  assert (Hv : ValidInput (form (typed [] "T" "B"))
                          "T" "B").
  { unfold ValidInput. simpl. repeat split; lia. }
  split; [exact Hv|].
  apply (submit_success_clears_message _ "T" "B" _ Hv).
Defined.

(** ** Load *)

(** C8: when the fetch of Load fails, the mirror and the displayed list are
    the ones before the call, and the status message is the error message
    of Load. *)
Theorem loadAll_failure (s : State) :
  allPosts (loadAll Fails s) = allPosts s /\
  posts (loadAll Fails s) = posts s /\
  message (loadAll Fails s) = Some LoadError /\
  kind LoadError = Failure.
Proof. repeat split. Qed.

Lemma loadAll_success (s : State) (data : list Post) :
  allPosts (loadAll (Succeeds data) s) = data /\
  posts (loadAll (Succeeds data) s) = data /\
  message (loadAll (Succeeds data) s) = Some (PostsLoaded (length data)).
Proof. repeat split. Qed.

(** ** Submit-create with an invalid form *)

(** C7: with an invalid form (title or body missing or over its length
    bound) Submit-create marks both fields touched, sets the warning
    message, sends no request and leaves the mirror as it was, whatever the
    remote service would have answered. *)
Theorem create_invalid_form (http : Outcome Post) (s : State) :
  InvalidInput (form s) ->
  touched (title_control (form (create http s))) = true /\
  touched (body_control (form (create http s))) = true /\
  message (create http s) = Some FormIncomplete /\
  kind FormIncomplete = Warning /\
  requests (create http s) = requests s /\
  allPosts (create http s) = allPosts s.
Proof.
  intros Hi. apply form_invalid_InvalidInput in Hi.
  unfold create. rewrite Hi. repeat split.
Qed.

Lemma create_invalid_form_witness :
  InvalidInput (form initial) /\
  message (create (Succeeds (mkPost None 1 "" "")) initial)
    = Some FormIncomplete /\
  requests (create (Succeeds (mkPost None 1 "" "")) initial) = [].
Proof.
  assert (Hi : InvalidInput (form initial)) by (left; right; reflexivity).
  split; [exact Hi|].
  pose proof (create_invalid_form (Succeeds (mkPost None 1 "" "")) initial Hi)
    as (_ & _ & Hm & _ & Hr & _).
  split; [exact Hm | exact Hr].
Defined.

(** ** Submit-create with a valid form *)

Lemma create_success_allPosts (s : State) (created : Post) :
  form_invalid (form s) = false ->
  allPosts (create (Succeeds created) s) =
    {| id := Some (generateNewId s);
       userId := userId created;
       title := title created;
       body := body created |} :: allPosts s.
Proof.
  intros Hf. unfold create. rewrite Hf. method_body. frame_filter.
  reflexivity.
Qed.

(** An integer from 0 to 2^53 is a double: rounding leaves it. *)
Lemma Number_round_exact (z : Z) :
  0 <= z <= 2 ^ 53 -> JS.Number_round z = z.
Proof.
  intros Hz. destruct (Z.eq_dec z (2 ^ 53)) as [->|Hne];
    [vm_compute; reflexivity|].
  unfold JS.Number_round.
  destruct (Z.ltb_spec (Z.abs z) (2 ^ 53)) as [_|Hge]; [reflexivity|lia].
Qed.

Lemma Math_max_ids (l : list Post) :
  MaxOf (100 :: map (fun p => absent_as_0 (id p)) l)
        (JS.Math_max (map id_or_0 l) 100).
Proof. rewrite <- (map_ext _ _ id_or_0_absent). apply Math_max_MaxOf. Qed.

(** With safe identifiers the sum of [generateNewId] is exact. *)
Lemma generateNewId_safe (s : State) :
  SafeIds (allPosts s) ->
  generateNewId s = JS.Math_max (map id_or_0 (allPosts s)) 100 + 1.
Proof.
  intros Hsafe. unfold generateNewId, JS.Number_add.
  destruct (Math_max_ids (allPosts s)) as [Hin Hub].
  apply Number_round_exact. split.
  - specialize (Hub 100 (or_introl eq_refl)). lia.
  - destruct Hin as [<-|Hin]; [lia|].
    apply in_map_iff in Hin as (p & Hp & Hin). rewrite <- Hp.
    destruct (id p) as [n|] eqn:E; simpl; [|lia].
    pose proof (Hsafe p n Hin E) as Hn. unfold Safe in Hn. lia.
Qed.

(** C3, for safe identifiers: on a mirror whose identifiers are safe integers
    (magnitude below 2^53), a successful Submit-create with valid input
    gives the new entry the identifier [m + 1], where [m] is the maximum of
    100 and of the identifiers of the mirror (an absent one counting as 0),
    and puts the entry at index 0 of the mirror, before the entries that
    were there; when the maximum identifier of the mirror is 5 the
    identifier is 101. *)
Theorem create_assigns_next_id (s : State) (t b : string) (created : Post) :
  SafeIds (allPosts s) ->
  ValidInput (form s) t b ->
  exists m : Z,
    MaxOf (100 :: map (fun p => absent_as_0 (id p)) (allPosts s)) m /\
    allPosts (create (Succeeds created) s) =
      {| id := Some (m + 1); userId := userId created;
         title := title created; body := body created |} :: allPosts s /\
    allPosts (create (Succeeds created) s) !! 0%nat =
      Some {| id := Some (m + 1); userId := userId created;
              title := title created; body := body created |} /\
    (MaxOf (map (fun p => absent_as_0 (id p)) (allPosts s)) 5 ->
     m + 1 = 101).
Proof.
  intros Hsafe Hv. pose proof (ValidInput_form_valid _ _ _ Hv) as Hf.
  exists (JS.Math_max (map id_or_0 (allPosts s)) 100).
  pose proof (Math_max_ids (allPosts s)) as Hmax.
  rewrite (create_success_allPosts s created Hf), (generateNewId_safe s Hsafe).
  repeat split; try apply Hmax.
  intros [_ Hle].
  assert (H100 : JS.Math_max (map id_or_0 (allPosts s)) 100 = 100).
  { apply (MaxOf_unique _ _ _ Hmax). split; [left; reflexivity|].
    intros x [<-|Hx]; [lia|]. specialize (Hle x Hx). lia. }
  rewrite H100. reflexivity.
Qed.

Lemma create_assigns_next_id_witness :
  SafeIds (allPosts (typed [numbered 5; numbered 2] "T" "B")) /\
  ValidInput (form (typed [numbered 5; numbered 2] "T" "B")) "T" "B" /\
  allPosts (create (Succeeds (mkPost None 1 "T" "B"))
                   (typed [numbered 5; numbered 2] "T" "B")) !! 0%nat =
    Some (mkPost (Some 101) 1 "T" "B").
Proof.
  assert (Hs : SafeIds (allPosts (typed [numbered 5; numbered 2] "T" "B"))).
  { intros p n [<-|[<-|[]]] Hn; injection Hn as <-; unfold Safe; lia. }
  assert (Hv : ValidInput (form (typed [numbered 5; numbered 2] "T" "B"))
                          "T" "B").
  { unfold ValidInput. simpl. repeat split; lia. }
  split; [exact Hs|]. split; [exact Hv|].
  destruct (create_assigns_next_id _ "T" "B" (mkPost None 1 "T" "B") Hs Hv)
    as (m & _ & _ & H0 & H5).
  rewrite H0. rewrite <- H5; [reflexivity|].
  split; [left; reflexivity|]. simpl. intros x [<-|[<-|[]]]; lia.
Defined.

(** C3 does not hold for every mirror list: with the valid input T, B and
    a mirror whose one entry has the identifier 2^53, the maximum is 2^53
    and the entry that Submit-create puts at index 0 has the identifier
    2^53 again, not 2^53 + 1: the sum is a double. *)
Lemma create_assigns_next_id_counterexample :
  ValidInput (form (typed [numbered 9007199254740992] "T" "B")) "T" "B" /\
  ~ (exists m : Z,
       MaxOf (100 :: map (fun p => absent_as_0 (id p))
                         (allPosts (typed [numbered 9007199254740992] "T" "B")))
             m /\
       allPosts (create (Succeeds (mkPost None 1 "T" "B"))
                   (typed [numbered 9007199254740992] "T" "B")) !! 0%nat =
         Some (mkPost (Some (m + 1)) 1 "T" "B")).
Proof.
  split.
  - unfold ValidInput. simpl. repeat split; lia.
  - intros (m & Hm & H0).
    assert (Hmax : MaxOf (100 :: map (fun p => absent_as_0 (id p))
                     (allPosts (typed [numbered 9007199254740992] "T" "B")))
                   9007199254740992).
    { split; [right; left; reflexivity|].
      simpl. intros x [<-|[<-|[]]]; lia. }
    rewrite (MaxOf_unique _ _ _ Hm Hmax) in H0.
    vm_compute in H0. discriminate H0.
Qed.

(** ** The filter function *)

Lemma not_Blank_cons (c : ascii) (s : string) :
  JS.isWhiteSpace c = false -> ~ Blank (String c s).
Proof.
  unfold Blank. simpl. intros Hc H. apply Forall_cons in H as [H _].
  congruence.
Qed.

(** C4: the filter, as a function of the mirror and the search term.  For a
    blank term (empty or white space only) the displayed list is the mirror
    itself; otherwise it keeps exactly the entries that match the term
    (lowercased title or body containing the lowercased term, or the decimal
    text of the identifier or of the owner id containing the term as it is),
    each where it was.  The entry [hello] is kept for the terms hel, WORLD,
    7 and 3 and dropped for zzz. *)
Theorem applyCurrentFilter_spec (s : State) :
  (Blank (searchTerm s) -> posts (applyCurrentFilter s) = allPosts s) /\
  (~ Blank (searchTerm s) ->
   Retains (Matches (searchTerm s)) (allPosts s)
           (posts (applyCurrentFilter s))) /\
  (allPosts s = [hello] ->
   (In (searchTerm s) ["hel"; "WORLD"; "7"; "3"] ->
    posts (applyCurrentFilter s) = [hello]) /\
   (searchTerm s = "zzz" -> posts (applyCurrentFilter s) = [])).
Proof.
  unfold applyCurrentFilter. split; [|split].
  - intros Hb. apply trim_falsy_Blank in Hb. rewrite Hb. reflexivity.
  - intros Hn. destruct (JS.truthy (JS.trim (searchTerm s))) eqn:E.
    + simpl. apply filter_Retains. intros p. apply filter_callback_Matches.
    + apply trim_falsy_Blank in E. contradiction.
  - intros Hm. rewrite Hm. split.
    + intros [<-|[<-|[<-|[<-|[]]]]]; vm_compute; reflexivity.
    + intros ->. vm_compute. reflexivity.
Qed.

Lemma applyCurrentFilter_spec_witness :
  (Blank "  " /\
   posts (applyCurrentFilter (searching [hello] "  ")) = [hello]) /\
  (~ Blank "WORLD" /\
   Retains (Matches "WORLD") [hello]
           (posts (applyCurrentFilter (searching [hello] "WORLD")))) /\
  posts (applyCurrentFilter (searching [hello] "7")) = [hello] /\
  posts (applyCurrentFilter (searching [hello] "zzz")) = [].
Proof.
  assert (Hb : Blank "  ") by (repeat constructor).
  assert (Hn : ~ Blank "WORLD") by (apply not_Blank_cons; reflexivity).
  split; [split; [exact Hb|]|split; [split; [exact Hn|]|split]].
  - apply (proj1 (applyCurrentFilter_spec (searching [hello] "  ")) Hb).
  - apply (proj1 (proj2 (applyCurrentFilter_spec (searching [hello] "WORLD")))
             Hn).
  - apply (proj2 (proj2 (applyCurrentFilter_spec (searching [hello] "7")))
             eq_refl).
    right; right; left; reflexivity.
  - apply (proj2 (proj2 (applyCurrentFilter_spec (searching [hello] "zzz")))
             eq_refl).
    reflexivity.
Defined.

(** ** Submit-update *)

Lemma update_success_allPosts (s : State) (post : Post) (r : Post) :
  editingPost s = Some post -> form_invalid (form s) = false ->
  allPosts (update (Succeeds r) s) =
    map (fun p => if strict_eq (id p) (id post)
                  then edited post (nonNull (value (title_control (form s))))
                                   (nonNull (value (body_control (form s))))
                  else p)
        (allPosts s).
Proof.
  intros He Hf. unfold update. rewrite He, Hf. method_body. frame_filter.
  reflexivity.
Qed.

(** C5: after a successful Submit-update while the entry being edited has
    the identifier [k], the mirror has the same length, and at every index
    an entry with identifier [k] has been replaced by the entry made of
    [k], the owner id of the edited entry and the title and body of the
    form, while an entry with another identifier, or with none, is the one
    that was there. *)
Theorem update_replaces_by_id (s : State) (post : Post) (k : Z)
  (t b : string) (r : Post) :
  editingPost s = Some post -> id post = Some k -> ValidInput (form s) t b ->
  length (allPosts (update (Succeeds r) s)) = length (allPosts s) /\
  forall (i : nat) (p : Post), allPosts s !! i = Some p ->
    (id p = Some k ->
     allPosts (update (Succeeds r) s) !! i =
       Some {| id := Some k; userId := userId post; title := t; body := b |}) /\
    (id p <> Some k -> allPosts (update (Succeeds r) s) !! i = Some p).
Proof.
  intros He Hk Hv. pose proof (ValidInput_form_valid _ _ _ Hv) as Hf.
  rewrite (update_success_allPosts s post r He Hf).
  destruct Hv as (-> & -> & _). simpl. split; [apply length_map|].
  intros i p Hp. rewrite list_lookup_fmap, Hp. simpl.
  destruct (strict_eq (id p) (id post)) eqn:E.
  - apply strict_eq_true in E. split; [|congruence].
    intros _. unfold edited. rewrite Hk. reflexivity.
  - split; [|reflexivity]. intros Hp'.
    assert (strict_eq (id p) (id post) = true)
      by (apply strict_eq_true; congruence).
    congruence.
Qed.

Lemma update_replaces_by_id_witness :
  ValidInput
    (form (perform (OpTypeTitle "X")
             (editPost (numbered 2) (typed [numbered 1; numbered 2] "" ""))))
    "X" "b" /\
  allPosts
    (update (Succeeds (numbered 2))
       (perform (OpTypeTitle "X")
          (editPost (numbered 2) (typed [numbered 1; numbered 2] "" ""))))
    !! 0%nat = Some (numbered 1) /\
  allPosts
    (update (Succeeds (numbered 2))
       (perform (OpTypeTitle "X")
          (editPost (numbered 2) (typed [numbered 1; numbered 2] "" ""))))
    !! 1%nat = Some {| id := Some 2; userId := 1; title := "X"; body := "b" |}.
Proof.
  assert (Hv : ValidInput
    (form (perform (OpTypeTitle "X")
             (editPost (numbered 2) (typed [numbered 1; numbered 2] "" ""))))
    "X" "b").
  { unfold ValidInput. simpl. repeat split; lia. }
  split; [exact Hv|].
  destruct (update_replaces_by_id
              (perform (OpTypeTitle "X")
                 (editPost (numbered 2)
                    (typed [numbered 1; numbered 2] "" "")))
              (numbered 2) 2 "X" "b" (numbered 2)
              eq_refl eq_refl Hv) as [_ Hat].
  split.
  - apply (Hat 0%nat (numbered 1) eq_refl). discriminate.
  - apply (Hat 1%nat (numbered 2) eq_refl). reflexivity.
Defined.

(** ** Delete *)

Lemma delete_success_allPosts (s : State) (post : Post) :
  allPosts (delete post true (Succeeds tt) s) =
    List.filter (fun p => negb (strict_eq (id p) (id post))) (allPosts s).
Proof. method_body. simpl. frame_filter. reflexivity. Qed.

(** C6: after a successful Delete of the entry with identifier [k], the
    mirror is the mirror before with every entry of identifier [k] removed
    and every other entry kept where it was; deleting identifier 2 from
    entries with identifiers 1, 2, 3 leaves the first and the third, in
    that order. *)
Theorem delete_removes_by_id (s : State) (post : Post) (k : Z) :
  id post = Some k ->
  Retains (fun p => id p <> Some k) (allPosts s)
          (allPosts (delete post true (Succeeds tt) s)) /\
  forall p1 p2 p3 : Post,
    allPosts s = [p1; p2; p3] ->
    id p1 = Some 1 -> id p2 = Some 2 -> id p3 = Some 3 -> k = 2 ->
    allPosts (delete post true (Succeeds tt) s) = [p1; p3].
Proof.
  intros Hk. rewrite delete_success_allPosts, Hk. split.
  - apply filter_Retains. intros p. rewrite negb_true_iff.
    rewrite <- strict_eq_true.
    destruct (strict_eq (id p) (Some k)); split; congruence.
  - intros p1 p2 p3 -> H1 H2 H3 ->. simpl. rewrite H1, H2, H3. reflexivity.
Qed.

Lemma delete_removes_by_id_witness :
  allPosts (delete (numbered 2) true (Succeeds tt)
                   (typed [numbered 1; numbered 2; numbered 3] "" "")) =
    [numbered 1; numbered 3].
Proof.
  apply (proj2 (delete_removes_by_id
                  (typed [numbered 1; numbered 2; numbered 3] "" "")
                  (numbered 2) 2 eq_refl)
               (numbered 1) (numbered 2) (numbered 3));
    reflexivity.
Defined.

(** ** The displayed list is drawn from the mirror *)

Lemma notify_loadAll_sublist (n : Notification (list Post)) (s : State) :
  Drawn s -> Drawn (notify loadAll_observer s n).
Proof.
  intros Hs. destruct n as [data| |]; [|exact Hs|exact Hs].
  unfold Drawn. simpl. reflexivity.
Qed.

Lemma notify_create_sublist (n : Notification Post) (s : State) :
  Drawn s -> Drawn (notify create_observer s n).
Proof.
  intros Hs. destruct n as [created| |]; [|exact Hs|exact Hs].
  apply applyCurrentFilter_sublist.
Qed.

Lemma notify_update_sublist (post updatedPost : Post)
  (n : Notification Post) (s : State) :
  Drawn s -> Drawn (notify (update_observer post updatedPost) s n).
Proof.
  intros Hs. destruct n as [r| |]; [|exact Hs|exact Hs].
  apply applyCurrentFilter_sublist.
Qed.

Lemma notify_delete_sublist (post : Post) (n : Notification unit)
  (s : State) :
  Drawn s -> Drawn (notify (delete_observer post) s n).
Proof.
  intros Hs. destruct n as [r| |]; [|exact Hs|exact Hs].
  apply applyCurrentFilter_sublist.
Qed.

(** Subscribing runs callbacks only. *)
Lemma subscribe_sublist {T : Type} (http : Outcome T)
  (obs : Observer State T) (s : State) :
  (forall (n : Notification T) (x : State), Drawn x -> Drawn (notify obs x n)) ->
  Drawn s -> Drawn (subscribe http obs s).
Proof.
  intros Hobs Hs. unfold subscribe.
  destruct http as [v| |]; cbn [notifications fold_left].
  - apply (Hobs Complete), (Hobs (Next v)), Hs.
  - apply (Hobs Error), Hs.
  - exact Hs.
Qed.

Lemma perform_sublist (a : Action) (s : State) :
  Drawn s -> Drawn (perform a s).
Proof.
  intros Hs.
  destruct a as [http|http|http|post confirmed http|input| |post|
                |text|text]; simpl.
  - apply subscribe_sublist; [apply notify_loadAll_sublist | exact Hs].
  - unfold create. destruct (form_invalid (form s)); [exact Hs|].
    apply subscribe_sublist; [apply notify_create_sublist | exact Hs].
  - unfold update. destruct (editingPost s) as [post|]; [|exact Hs].
    destruct (form_invalid (form s)); [exact Hs|].
    apply subscribe_sublist; [apply notify_update_sublist | exact Hs].
  - unfold delete. destruct confirmed; [|exact Hs].
    apply subscribe_sublist; [apply notify_delete_sublist | exact Hs].
  - unfold search, andThen.
    destruct (JS.truthy (JS.trim (JS.toLowerCase input)));
      apply applyCurrentFilter_sublist.
  - unfold Drawn. reflexivity.
  - exact Hs.
  - exact Hs.
  - exact Hs.
  - exact Hs.
Qed.

Lemma handle_sublist (e : Event) (s : State) : Drawn s -> Drawn (handle e s).
Proof.
  destruct e as [a|n|n|post updatedPost n|post n]; simpl.
  - apply perform_sublist.
  - apply notify_loadAll_sublist.
  - apply notify_create_sublist.
  - apply notify_update_sublist.
  - apply notify_delete_sublist.
Qed.

Lemma run_sublist (events : list Event) (s : State) :
  Drawn s -> Drawn (run events s).
Proof.
  revert s. induction events as [|e events IH]; intros s Hs; simpl.
  - exact Hs.
  - apply IH, handle_sublist, Hs.
Qed.

(** C9: after any sequence of operations of the controller (Load,
    Submit-create, Submit-update, Delete, Search, Clear-search, Begin-edit,
    Reset, typing into the form), each remote call ending in any way, its
    callbacks run at once or at any later point, the displayed list is an
    order-preserving sublist of the mirror, and so every displayed entry
    occurs in the mirror. *)
Theorem displayed_sublist_of_mirror (events : list Event) :
  sublist (posts (run events initial)) (allPosts (run events initial)) /\
  forall p : Post,
    In p (posts (run events initial)) -> In p (allPosts (run events initial)).
Proof.
  assert (Hs : sublist (posts (run events initial))
                       (allPosts (run events initial)))
    by (apply run_sublist; constructor).
  split; [exact Hs|].
  intros p Hp. apply list_elem_of_In. apply list_elem_of_In in Hp.
  exact (elem_of_sublist _ _ _ Hp Hs).
Qed.

(** ** Submit-update when no entry has the edited identifier *)

(** C10: Submit-update while the identifier of the entry being edited is
    the identifier of no entry of the mirror.  The update request is sent
    all the same, and when it succeeds the mirror is the one before.  The
    callback writes the success message and then ends with [resetForm],
    which clears it: the status message after the operation is empty. *)
Theorem update_unknown_id (s : State) (post : Post) (t b : string)
  (r : Post) :
  editingPost s = Some post -> ValidInput (form s) t b ->
  (forall p : Post, In p (allPosts s) -> id p <> id post) ->
  requests (update (Succeeds r) s) =
    (requests s ++ [PostsService.update (id post) (edited post t b)])%list /\
  allPosts (update (Succeeds r) s) = allPosts s /\
  (exists x : State,
     update (Succeeds r) s =
       set_loading false (resetForm (set_message (Some PostUpdated) x))) /\
  message (update (Succeeds r) s) = None.
Proof.
  intros He Hv Hno. pose proof (ValidInput_form_valid _ _ _ Hv) as Hf.
  split; [|split; [|split]].
  - unfold update. rewrite He, Hf. destruct Hv as (-> & -> & _).
    method_body. frame_filter. reflexivity.
  - rewrite (update_success_allPosts s post r He Hf).
    rewrite <- (map_id (allPosts s)) at 2. apply map_ext_in.
    intros p Hp. destruct (strict_eq (id p) (id post)) eqn:E; [|reflexivity].
    apply strict_eq_true in E. destruct (Hno p Hp E).
  - unfold update. rewrite He, Hf. method_body. eexists. reflexivity.
  - unfold update. rewrite He, Hf. method_body. frame_filter. reflexivity.
Qed.

Lemma update_unknown_id_witness :
  ValidInput (form (editPost (numbered 9) (typed [numbered 1] "" "")))
             "t" "b" /\
  (forall p : Post, In p [numbered 1] -> id p <> Some 9) /\
  message (update (Succeeds (numbered 9))
                  (editPost (numbered 9) (typed [numbered 1] "" ""))) = None.
Proof.
  assert (Hv : ValidInput
                 (form (editPost (numbered 9) (typed [numbered 1] "" "")))
                 "t" "b").
  { unfold ValidInput. simpl. repeat split; lia. }
  assert (Hno : forall p : Post, In p [numbered 1] -> id p <> Some 9).
  { simpl. intros p [<-|[]]. discriminate. }
  split; [exact Hv|split; [exact Hno|]].
  apply (update_unknown_id (editPost (numbered 9) (typed [numbered 1] "" ""))
           (numbered 9) "t" "b" (numbered 9) eq_refl Hv Hno).
Defined.

(** * Further properties of the component *)

(** ** Lower case, white space and occurrences *)

Lemma toLowerCase_char_idem (c : ascii) :
  JS.toLowerCase_char (JS.toLowerCase_char c) = JS.toLowerCase_char c.
Proof. destruct c as [[] [] [] [] [] [] [] []]; reflexivity. Qed.

Lemma toLowerCase_idem (s : string) :
  JS.toLowerCase (JS.toLowerCase s) = JS.toLowerCase s.
Proof.
  induction s as [|c s IH]; simpl; [reflexivity|].
  rewrite toLowerCase_char_idem, IH. reflexivity.
Qed.

Lemma toLowerCase_app (u v : string) :
  JS.toLowerCase (u ++ v) = JS.toLowerCase u ++ JS.toLowerCase v.
Proof.
  induction u as [|c u IH]; simpl; [reflexivity|]. rewrite IH. reflexivity.
Qed.

Lemma isWhiteSpace_toLowerCase_char (c : ascii) :
  JS.isWhiteSpace (JS.toLowerCase_char c) = JS.isWhiteSpace c.
Proof. destruct c as [[] [] [] [] [] [] [] []]; reflexivity. Qed.

Lemma Blank_toLowerCase (s : string) : Blank (JS.toLowerCase s) <-> Blank s.
Proof.
  unfold Blank. induction s as [|c s IH]; simpl; [tauto|].
  rewrite !Forall_cons, isWhiteSpace_toLowerCase_char, IH. tauto.
Qed.

Lemma Blank_app (u v : string) : Blank (u ++ v) <-> Blank u /\ Blank v.
Proof.
  unfold Blank. induction u as [|c u IH]; simpl.
  - split; [intros H; split; [constructor|exact H] | tauto].
  - rewrite !Forall_cons, IH. tauto.
Qed.

Lemma Substring_Blank (t s : string) : Substring t s -> Blank s -> Blank t.
Proof.
  intros (u & v & ->) Hb. apply Blank_app in Hb as [_ Hb].
  apply Blank_app in Hb as [Hb _]. exact Hb.
Qed.

Lemma append_assoc (a b c : string) : (a ++ b) ++ c = a ++ b ++ c.
Proof. induction a as [|x a IH]; simpl; [reflexivity|]. rewrite IH. reflexivity. Qed.

Lemma Substring_trans (a b c : string) :
  Substring a b -> Substring b c -> Substring a c.
Proof.
  intros (u & v & ->) (u' & v' & ->).
  exists (u' ++ u), (v ++ v'). rewrite !append_assoc. reflexivity.
Qed.

Lemma Substring_toLowerCase (t s : string) :
  Substring t s -> Substring (JS.toLowerCase t) (JS.toLowerCase s).
Proof.
  intros (u & v & ->). exists (JS.toLowerCase u), (JS.toLowerCase v).
  rewrite !toLowerCase_app. reflexivity.
Qed.

Lemma Substring_refl (s : string) : Substring s s.
Proof.
  exists EmptyString, EmptyString. simpl.
  induction s as [|c s IH]; simpl; [reflexivity|]. rewrite <- IH. reflexivity.
Qed.

(** ** Decimal text of a number *)

Lemma string_of_uint_chars (d : Decimal.uint) :
  Forall (fun c => JS.toLowerCase_char c = c /\ JS.isWhiteSpace c = false)
         (list_ascii_of_string (NilEmpty.string_of_uint d)).
Proof.
  induction d; simpl; constructor; try (split; reflexivity); assumption.
Qed.

Lemma Number_toString_chars (n : Z) :
  Forall (fun c => JS.toLowerCase_char c = c /\ JS.isWhiteSpace c = false)
         (list_ascii_of_string (JS.Number_toString n)).
Proof.
  unfold JS.Number_toString, NilZero.string_of_int, NilZero.string_of_uint.
  destruct (Z.to_int n) as [d|d]; [|constructor; [split; reflexivity|]];
    destruct d; try apply (string_of_uint_chars (_ d));
    repeat constructor.
Qed.

Lemma Number_toString_nonempty (n : Z) :
  JS.Number_toString n <> EmptyString.
Proof.
  unfold JS.Number_toString, NilZero.string_of_int, NilZero.string_of_uint.
  destruct (Z.to_int n) as [d|d]; [|discriminate].
  destruct d; discriminate.
Qed.

Lemma Number_toString_lower (n : Z) :
  JS.toLowerCase (JS.Number_toString n) = JS.Number_toString n.
Proof.
  pose proof (Number_toString_chars n) as H.
  induction (JS.Number_toString n) as [|c s IH]; simpl; [reflexivity|].
  simpl in H. apply Forall_cons in H as [[Hc _] Hs].
  rewrite Hc, (IH Hs). reflexivity.
Qed.

Lemma Number_toString_not_Blank (n : Z) : ~ Blank (JS.Number_toString n).
Proof.
  pose proof (Number_toString_chars n) as H.
  pose proof (Number_toString_nonempty n) as Hne.
  destruct (JS.Number_toString n) as [|c s]; [congruence|].
  simpl in H. apply Forall_cons in H as [[_ Hc] _].
  apply not_Blank_cons. exact Hc.
Qed.

Lemma to_int_proper (n : Z) :
  Z.to_int n <> Decimal.Pos Decimal.Nil /\
  Z.to_int n <> Decimal.Neg Decimal.Nil.
Proof.
  destruct n as [|p|p]; simpl; split; try discriminate;
    intros H; injection H as H; exact (Unsigned.to_uint_nonnil p H).
Qed.

(** Reading the decimal text back gives the number. *)
Lemma Number_toString_parse (n : Z) :
  option_map Z.of_int (NilZero.int_of_string (JS.Number_toString n)) = Some n.
Proof.
  unfold JS.Number_toString. destruct (to_int_proper n) as [H1 H2].
  rewrite (NilZero.isi _ H1 H2). simpl. rewrite DecimalZ.of_to. reflexivity.
Qed.

Lemma Number_toString_inj (a b : Z) :
  JS.Number_toString a = JS.Number_toString b -> a = b.
Proof.
  intros H. pose proof (Number_toString_parse a) as Ha.
  rewrite H, Number_toString_parse in Ha. congruence.
Qed.

Lemma append_inj_r (p x y : string) : p ++ x = p ++ y -> x = y.
Proof.
  induction p as [|c p IH]; simpl; [tauto|]. intros H. injection H as H.
  exact (IH H).
Qed.

(** ** The form and the guards of the submit methods *)

(** X1: [form.invalid] is false exactly when both fields hold a text that is
    not empty and within its bound, 100 characters for the title and 500
    for the body; white space counts as text. *)
Theorem form_valid_iff (f : PostForm) :
  form_invalid f = false <-> exists t b : string, ValidInput f t b.
Proof.
  split.
  - apply form_valid_ValidInput.
  - intros (t & b & Hv). exact (ValidInput_form_valid f t b Hv).
Qed.

Lemma form_valid_iff_witness :
  form_invalid (form_patchValue " " "B" initial_form) = false.
Proof.
  apply (proj2 (form_valid_iff (form_patchValue " " "B" initial_form))).
  exists " ", "B". unfold ValidInput. simpl. repeat split; lia.
Defined.

Lemma create_success_state (s : State) (r : Post) :
  form_invalid (form s) = false ->
  form (create (Succeeds r) s) = form_reset (form s) /\
  requests (create (Succeeds r) s) =
    (requests s ++
     [PostsService.create
        {| id := None; userId := 1;
           title := nonNull (value (title_control (form s)));
           body := nonNull (value (body_control (form s))) |}])%list.
Proof.
  intros Hf. unfold create. rewrite Hf. method_body. frame_filter.
  split; reflexivity.
Qed.

(** X2: a valid Submit-create sends one POST that carries the owner id 1,
    the title and the body of the form and no identifier; once it has
    succeeded the form is empty, so that a second Submit-create right after
    it sends nothing more, shows the warning and leaves the mirror as the
    first one left it. *)
Theorem second_create_is_refused (s : State) (t b : string) (r : Post)
  (http : Outcome Post) :
  ValidInput (form s) t b ->
  requests (create http (create (Succeeds r) s)) =
    (requests s ++
     [PostsService.POST PostsService.apiUrl
        {| id := None; userId := 1; title := t; body := b |}])%list /\
  message (create http (create (Succeeds r) s)) = Some FormIncomplete /\
  allPosts (create http (create (Succeeds r) s)) =
    allPosts (create (Succeeds r) s).
Proof.
  intros Hv. pose proof (ValidInput_form_valid _ _ _ Hv) as Hf.
  destruct (create_success_state s r Hf) as [Hform Hreq].
  destruct Hv as (Ht & Hb & _). rewrite Ht, Hb in Hreq.
  unfold PostsService.create in Hreq. simpl in Hreq. rewrite <- Hreq.
  generalize dependent (create (Succeeds r) s). intros s1 Hform Hreq.
  unfold create. rewrite Hform. simpl. repeat split.
Qed.

Lemma second_create_is_refused_witness :
  ValidInput (form (typed [] "T" "B")) "T" "B" /\
  requests (create (Succeeds (numbered 102))
              (create (Succeeds (numbered 101)) (typed [] "T" "B"))) =
    [PostsService.GET PostsService.apiUrl;
     PostsService.POST PostsService.apiUrl
       {| id := None; userId := 1; title := "T"; body := "B" |}].
Proof.
  assert (Hv : ValidInput (form (typed [] "T" "B")) "T" "B").
  { unfold ValidInput. simpl. repeat split; lia. }
  split; [exact Hv|].
  apply (second_create_is_refused (typed [] "T" "B") "T" "B" (numbered 101)
           (Succeeds (numbered 102)) Hv).
Defined.

(** X3: Submit-update does nothing at all, and sends no request, when no
    entry is being edited or when the form is invalid (title or body
    missing or over its bound); unlike Submit-create it shows no warning. *)
Theorem update_guard (http : Outcome Post) (s : State) :
  editingPost s = None \/ InvalidInput (form s) -> update http s = s.
Proof.
  intros [He|Hi]; unfold update.
  - rewrite He. reflexivity.
  - apply form_invalid_InvalidInput in Hi. rewrite Hi.
    destruct (editingPost s); reflexivity.
Qed.

Lemma update_guard_witness :
  update (Succeeds (numbered 1)) (typed [numbered 1] "T" "B") =
  typed [numbered 1] "T" "B".
Proof.
  apply (update_guard (Succeeds (numbered 1)) (typed [numbered 1] "T" "B")).
  left. reflexivity.
Defined.

(** X4: a successful Submit-update leaves the edit mode, so that a second
    Submit-update right after it changes nothing and sends nothing. *)
Theorem second_update_is_noop (s : State) (post : Post) (t b : string)
  (r : Post) (http : Outcome Post) :
  editingPost s = Some post -> ValidInput (form s) t b ->
  isEditing (update (Succeeds r) s) = false /\
  update http (update (Succeeds r) s) = update (Succeeds r) s.
Proof.
  intros He Hv. pose proof (ValidInput_form_valid _ _ _ Hv) as Hf.
  assert (Hn : editingPost (update (Succeeds r) s) = None).
  { unfold update. rewrite He, Hf. method_body. frame_filter. reflexivity. }
  split.
  - unfold isEditing. rewrite Hn. reflexivity.
  - generalize dependent (update (Succeeds r) s). intros s1 Hn.
    unfold update. rewrite Hn. reflexivity.
Qed.

Lemma second_update_is_noop_witness :
  ValidInput (form (editPost (numbered 2) (typed [numbered 2] "" "")))
             "t" "b" /\
  update Fails
    (update (Succeeds (numbered 2))
            (editPost (numbered 2) (typed [numbered 2] "" ""))) =
  update (Succeeds (numbered 2))
         (editPost (numbered 2) (typed [numbered 2] "" "")).
Proof.
  assert (Hv : ValidInput
                 (form (editPost (numbered 2) (typed [numbered 2] "" "")))
                 "t" "b").
  { unfold ValidInput. simpl. repeat split; lia. }
  split; [exact Hv|].
  apply (second_update_is_noop
           (editPost (numbered 2) (typed [numbered 2] "" ""))
           (numbered 2) "t" "b" (numbered 2) Fails eq_refl Hv).
Defined.

(** ** Failed calls *)

(** X5: a Submit-create, Submit-update or Delete whose remote call fails
    changes neither the mirror nor the displayed list nor the entry being
    edited, and keeps the texts of the form, so that the user can submit
    again; the message is then the error message of the operation.  When
    the operation made no call the message is the warning (Submit-create
    with an invalid form) or the one before (Submit-update not editing or
    with an invalid form, Delete not confirmed). *)
Theorem failed_call_keeps_data (s : State) (post : Post) (confirmed : bool) :
  (allPosts (create Fails s) = allPosts s /\
   posts (create Fails s) = posts s /\
   value (title_control (form (create Fails s))) =
     value (title_control (form s)) /\
   value (body_control (form (create Fails s))) =
     value (body_control (form s)) /\
   editingPost (create Fails s) = editingPost s /\
   message (create Fails s) =
     Some (if form_invalid (form s) then FormIncomplete else CreateError)) /\
  (allPosts (update Fails s) = allPosts s /\
   posts (update Fails s) = posts s /\
   form (update Fails s) = form s /\
   editingPost (update Fails s) = editingPost s /\
   message (update Fails s) =
     match editingPost s with
     | Some _ => if form_invalid (form s) then message s else Some UpdateError
     | None => message s
     end) /\
  (allPosts (delete post confirmed Fails s) = allPosts s /\
   posts (delete post confirmed Fails s) = posts s /\
   form (delete post confirmed Fails s) = form s /\
   editingPost (delete post confirmed Fails s) = editingPost s /\
   message (delete post confirmed Fails s) =
     if confirmed then Some DeleteError else message s).
Proof.
  split; [|split].
  - unfold create. destruct (form_invalid (form s)); repeat split.
  - unfold update. destruct (editingPost s) as [e|] eqn:He;
      [|repeat split; exact He].
    destruct (form_invalid (form s)); repeat split; simpl; congruence.
  - destruct confirmed; repeat split.
Qed.

(** ** Identifiers *)

Lemma SafeIds_below (l : list Post) : SafeIds l -> IdsBelow (2 ^ 53) l.
Proof.
  intros Hs p Hp. unfold id_or_0. destruct (id p) as [n|] eqn:E; [|lia].
  pose proof (Hs p n Hp E) as Hn. unfold Safe in Hn.
  destruct (Z.eqb_spec n 0); lia.
Qed.

(** What [generateNewId] gives when the identifiers are below a bound [c]
    that the sum does not pass. *)
Lemma generateNewId_below (c : Z) (s : State) :
  100 < c -> c <= 2 ^ 53 -> IdsBelow c (allPosts s) ->
  generateNewId s = JS.Math_max (map id_or_0 (allPosts s)) 100 + 1 /\
  100 < generateNewId s <= c /\
  forall p : Post, In p (allPosts s) -> id_or_0 p < generateNewId s.
Proof.
  intros Hc Hc53 Hb.
  destruct (Math_max_MaxOf (map id_or_0 (allPosts s)) 100) as [Hin Hub].
  assert (Hlt : JS.Math_max (map id_or_0 (allPosts s)) 100 < c).
  { destruct Hin as [<-|Hin]; [lia|].
    apply in_map_iff in Hin as (p & <- & Hin). exact (Hb p Hin). }
  assert (Hge : 100 <= JS.Math_max (map id_or_0 (allPosts s)) 100)
    by (apply Hub; left; reflexivity).
  assert (Hg : generateNewId s =
               JS.Math_max (map id_or_0 (allPosts s)) 100 + 1).
  { unfold generateNewId, JS.Number_add. apply Number_round_exact. lia. }
  split; [exact Hg|]. rewrite Hg. split; [lia|].
  intros p Hp.
  specialize (Hub (id_or_0 p) (or_intror (in_map id_or_0 _ _ Hp))). lia.
Qed.

Lemma generateNewId_not_in (c : Z) (s : State) (p : Post) :
  100 < c -> c <= 2 ^ 53 -> IdsBelow c (allPosts s) ->
  In p (allPosts s) -> id p <> Some (generateNewId s).
Proof.
  intros Hc Hc53 Hb Hp Heq.
  destruct (generateNewId_below c s Hc Hc53 Hb) as (_ & H100 & Hlt).
  specialize (Hlt p Hp). unfold id_or_0 in Hlt.
  rewrite Heq in Hlt. destruct (Z.eqb_spec (generateNewId s) 0); lia.
Qed.

(** X6: on a mirror whose identifiers are safe integers (magnitude below
    2^53), the identifier that [generateNewId] gives is above 100 and is
    the identifier of no entry of the mirror. *)
Theorem generateNewId_fresh (s : State) :
  SafeIds (allPosts s) ->
  100 < generateNewId s /\
  forall p : Post, In p (allPosts s) -> id p <> Some (generateNewId s).
Proof.
  intros Hs. apply SafeIds_below in Hs.
  assert (H53 : 100 < 2 ^ 53) by (vm_compute; reflexivity).
  split.
  - apply (generateNewId_below (2 ^ 53) s H53); [lia | exact Hs].
  - intros p. apply (generateNewId_not_in (2 ^ 53) s p H53); [lia | exact Hs].
Qed.

Lemma generateNewId_fresh_witness :
  SafeIds (allPosts (typed [numbered 5; numbered 250] "" "")) /\
  generateNewId (typed [numbered 5; numbered 250] "" "") = 251 /\
  id (numbered 250) <> Some 251.
Proof.
  assert (Hs : SafeIds (allPosts (typed [numbered 5; numbered 250] "" ""))).
  { intros p n [<-|[<-|[]]] Hn; injection Hn as <-; unfold Safe; lia. }
  split; [exact Hs|]. split; [reflexivity|].
  apply (proj2 (generateNewId_fresh _ Hs) (numbered 250)).
  right; left; reflexivity.
Defined.

Lemma create_next_allPosts (created : Post) (s : State) :
  allPosts (next create_observer created s) =
    {| id := Some (generateNewId s); userId := userId created;
       title := title created; body := body created |} :: allPosts s.
Proof. method_body. frame_filter. reflexivity. Qed.

(** X7: right after a successful Submit-create the next identifier that
    [generateNewId] would give is the one just given plus one, provided the
    identifiers of the mirror and the one just given are safe integers.
    (Nothing is said across a Delete, which can free the largest
    identifier.) *)
Theorem generateNewId_increases (s : State) (t b : string) (created : Post) :
  SafeIds (allPosts s) -> generateNewId s < 2 ^ 53 ->
  ValidInput (form s) t b ->
  generateNewId (create (Succeeds created) s) = generateNewId s + 1.
Proof.
  intros Hs Hg Hv. pose proof (ValidInput_form_valid _ _ _ Hv) as Hf.
  pose proof (create_success_allPosts s created Hf) as Ha.
  apply SafeIds_below in Hs.
  assert (H53 : 100 < 2 ^ 53) by (vm_compute; reflexivity).
  destruct (generateNewId_below (2 ^ 53) s H53 (Z.le_refl _) Hs)
    as (Hg0 & [Hg100 _] & Hlt).
  assert (Hb : IdsBelow (2 ^ 53) (allPosts (create (Succeeds created) s))).
  { rewrite Ha. intros p [<-|Hp]; [|exact (Hs p Hp)].
    unfold id_or_0. simpl. destruct (Z.eqb_spec (generateNewId s) 0); lia. }
  destruct (generateNewId_below (2 ^ 53) _ H53 (Z.le_refl _) Hb)
    as (Hg1 & _ & _).
  rewrite Hg1, Ha.
  change (JS.Math_max (map id_or_0 (?x :: allPosts s)) 100)
    with (Z.max (id_or_0 x) (JS.Math_max (map id_or_0 (allPosts s)) 100)).
  unfold id_or_0 at 1. cbn [id].
  destruct (Z.eqb_spec (generateNewId s) 0); lia.
Qed.

Lemma generateNewId_increases_witness :
  SafeIds (allPosts (typed [numbered 5] "T" "B")) /\
  generateNewId (typed [numbered 5] "T" "B") < 2 ^ 53 /\
  ValidInput (form (typed [numbered 5] "T" "B")) "T" "B" /\
  generateNewId (create (Succeeds (numbered 7)) (typed [numbered 5] "T" "B"))
  = 102.
Proof.
  assert (Hs : SafeIds (allPosts (typed [numbered 5] "T" "B"))).
  { intros p n [<-|[]] Hn; injection Hn as <-; unfold Safe; lia. }
  assert (Hg : generateNewId (typed [numbered 5] "T" "B") < 2 ^ 53)
    by (vm_compute; reflexivity).
  assert (Hv : ValidInput (form (typed [numbered 5] "T" "B")) "T" "B").
  { unfold ValidInput. simpl. repeat split; lia. }
  split; [exact Hs|]. split; [exact Hg|]. split; [exact Hv|].
  rewrite (generateNewId_increases _ "T" "B" (numbered 7) Hs Hg Hv).
  reflexivity.
Defined.

Lemma map_id_replace (post updatedPost : Post) (l : list Post) :
  id updatedPost = id post ->
  map id (map (fun p => if strict_eq (id p) (id post)
                        then updatedPost else p) l) = map id l.
Proof.
  intros Hu. rewrite map_map. apply map_ext. intros p.
  destruct (strict_eq (id p) (id post)) eqn:E; [|reflexivity].
  apply strict_eq_true in E. congruence.
Qed.

Lemma update_next_allPosts (post updatedPost r : Post) (s : State) :
  allPosts (next (update_observer post updatedPost) r s) =
    map (fun p => if strict_eq (id p) (id post) then updatedPost else p)
        (allPosts s).
Proof. method_body. frame_filter. reflexivity. Qed.

Lemma delete_next_allPosts (post : Post) (u : unit) (s : State) :
  allPosts (next (delete_observer post) u s) =
    List.filter (fun p => negb (strict_eq (id p) (id post))) (allPosts s).
Proof. method_body. frame_filter. reflexivity. Qed.

(** X8: Submit-update, however its remote call ends, never changes which
    identifiers the mirror holds, nor their order. *)
Theorem update_keeps_ids (http : Outcome Post) (s : State) :
  map id (allPosts (update http s)) = map id (allPosts s).
Proof.
  unfold update. destruct (editingPost s) as [post|]; [|reflexivity].
  destruct (form_invalid (form s)); [reflexivity|].
  destruct http as [r| |]; [|reflexivity|reflexivity].
  unfold andThen, subscribe. cbn [notifications fold_left notify].
  change (allPosts (complete ?o ?x)) with (allPosts x).
  rewrite update_next_allPosts. apply map_id_replace. reflexivity.
Qed.

Lemma DistinctIds_filter (f : Post -> bool) (l : list Post) :
  DistinctIds l -> DistinctIds (List.filter f l).
Proof.
  unfold DistinctIds. induction l as [|p l IH]; simpl; [tauto|].
  rewrite NoDup_cons. intros [Hp Hl]. destruct (f p); simpl; [|auto].
  apply NoDup_cons. split; [|auto].
  rewrite list_elem_of_In in *. rewrite in_map_iff in *.
  intros (q & Hq & Hin). apply Hp. exists q. split; [exact Hq|].
  apply filter_In in Hin. tauto.
Qed.

Lemma DistinctIds_same_id (l : list Post) (p q : Post) :
  DistinctIds l -> In p l -> In q l -> id p = id q -> p = q.
Proof.
  unfold DistinctIds. induction l as [|x l IH]; simpl; [tauto|].
  rewrite NoDup_cons, list_elem_of_In, in_map_iff.
  intros [Hx Hl] [->|Hp] [->|Hq] Heq; auto.
  - destruct Hx. exists q. split; [congruence|exact Hq].
  - destruct Hx. exists p. split; [congruence|exact Hp].
Qed.

Lemma Tidy_weaken (c c' : Z) (l : list Post) :
  c <= c' -> Tidy c l -> Tidy c' l.
Proof.
  intros Hc [Hd Hb]. split; [exact Hd|].
  intros p Hp. specialize (Hb p Hp). lia.
Qed.

Lemma next_create_tidy (c : Z) (created : Post) (s : State) :
  100 < c -> c < 2 ^ 53 -> Tidy c (allPosts s) ->
  Tidy (c + 1) (allPosts (next create_observer created s)).
Proof.
  intros Hc Hc53 [Hd Hb]. rewrite create_next_allPosts.
  assert (Hle : c <= 2 ^ 53) by lia.
  destruct (generateNewId_below c s Hc Hle Hb) as (_ & [Hg100 Hgc] & _).
  split.
  - unfold DistinctIds. simpl. apply NoDup_cons. split; [|exact Hd].
    rewrite list_elem_of_In, in_map_iff. intros (p & Hp & Hin).
    exact (generateNewId_not_in c s p Hc Hle Hb Hin Hp).
  - intros p [<-|Hp].
    + unfold id_or_0. simpl. destruct (Z.eqb_spec (generateNewId s) 0); lia.
    + specialize (Hb p Hp). lia.
Qed.

Lemma next_update_tidy (c : Z) (post updatedPost r : Post) (s : State) :
  id updatedPost = id post -> Tidy c (allPosts s) ->
  Tidy c (allPosts (next (update_observer post updatedPost) r s)).
Proof.
  intros Hu [Hd Hb]. rewrite update_next_allPosts. split.
  - unfold DistinctIds. rewrite (map_id_replace post updatedPost _ Hu).
    exact Hd.
  - intros p Hp. apply in_map_iff in Hp as (q & <- & Hq).
    specialize (Hb q Hq).
    destruct (strict_eq (id q) (id post)) eqn:E; [|exact Hb].
    apply strict_eq_true in E. unfold id_or_0 in *.
    rewrite Hu, <- E. exact Hb.
Qed.

Lemma next_delete_tidy (c : Z) (post : Post) (u : unit) (s : State) :
  Tidy c (allPosts s) ->
  Tidy c (allPosts (next (delete_observer post) u s)).
Proof.
  intros [Hd Hb]. rewrite delete_next_allPosts. split.
  - apply DistinctIds_filter. exact Hd.
  - intros p Hp. apply filter_In in Hp as [Hp _]. exact (Hb p Hp).
Qed.

(** Subscribing runs [next] and then [complete], or [error], or nothing
    yet; of these only [next] writes the mirror. *)
Lemma subscribe_tidy {T : Type} (c : Z) (http : Outcome T)
  (obs : Observer State T) (s : State) :
  (forall (v : T) (x : State),
     Tidy c (allPosts x) -> Tidy (c + 1) (allPosts (next obs v x))) ->
  (forall x : State, allPosts (error obs x) = allPosts x) ->
  (forall x : State, allPosts (complete obs x) = allPosts x) ->
  Tidy c (allPosts s) -> Tidy (c + 1) (allPosts (subscribe http obs s)).
Proof.
  intros Hnext Herr Hcomp Hs. unfold subscribe.
  destruct http as [v| |]; cbn [notifications fold_left notify].
  - rewrite Hcomp. apply Hnext. exact Hs.
  - rewrite Herr. apply (Tidy_weaken c); [lia | exact Hs].
  - apply (Tidy_weaken c); [lia | exact Hs].
Qed.

Lemma local_frame (a : Action) (s : State) :
  local a = true ->
  allPosts (perform a s) = allPosts s /\
  requests (perform a s) = requests s /\
  loading (perform a s) = loading s.
Proof.
  destruct a; try discriminate; intros _; simpl;
    unfold search, clearSearch, cancelEdit, resetForm, editPost, andThen;
    try (destruct (JS.truthy (JS.trim (JS.toLowerCase input))));
    frame_filter; repeat split.
Qed.

(** X9: the operations without remote call (Search, Clear-search,
    Begin-edit, Reset, typing into the form) send no request and change
    neither the mirror nor the busy flag. *)
Theorem local_operations (a : Action) (s : State) :
  local a = true ->
  allPosts (perform a s) = allPosts s /\
  requests (perform a s) = requests s /\
  loading (perform a s) = loading s.
Proof. apply local_frame. Qed.

Lemma local_operations_witness :
  allPosts (perform (OpSearch "ZZZ") (typed [hello] "" "")) = [hello] /\
  requests (perform (OpSearch "ZZZ") (typed [hello] "" "")) =
    [PostsService.GET PostsService.apiUrl].
Proof.
  destruct (local_operations (OpSearch "ZZZ") (typed [hello] "" "") eq_refl)
    as (Ha & Hr & _).
  rewrite Ha, Hr. split; reflexivity.
Defined.

Lemma perform_tidy (b c : Z) (a : Action) (s : State) :
  WellFormed b (UserDoes a) -> b <= c -> 100 < c -> c < 2 ^ 53 ->
  Tidy c (allPosts s) -> Tidy (c + 1) (allPosts (perform a s)).
Proof.
  intros Hw Hbc Hc Hc53 Hs.
  assert (Hs1 : Tidy (c + 1) (allPosts s))
    by (apply (Tidy_weaken c); [lia | exact Hs]).
  destruct a as [http|http|http|post confirmed http|input| |post|
                |text|text];
    try (match goal with
         | |- Tidy _ (allPosts (perform ?a s)) =>
             rewrite (proj1 (local_frame a s eq_refl)); exact Hs1
         end); simpl.
  - destruct http as [data| |]; [|exact Hs1|exact Hs1].
    destruct Hw as [Hd Hb]. apply (Tidy_weaken b); [lia|]. split; assumption.
  - unfold create. destruct (form_invalid (form s)); [exact Hs1|].
    apply subscribe_tidy; try reflexivity; [|exact Hs].
    intros v x. apply next_create_tidy; assumption.
  - unfold update. destruct (editingPost s) as [post|]; [|exact Hs1].
    destruct (form_invalid (form s)); [exact Hs1|].
    apply subscribe_tidy; try reflexivity; [|exact Hs].
    intros v x Hx. apply (Tidy_weaken c); [lia|].
    apply next_update_tidy; [reflexivity | exact Hx].
  - unfold delete. destruct confirmed; [|exact Hs1].
    apply subscribe_tidy; try reflexivity; [|exact Hs].
    intros v x Hx. apply (Tidy_weaken c); [lia|].
    apply next_delete_tidy. exact Hx.
Qed.

Lemma handle_tidy (b c : Z) (e : Event) (s : State) :
  WellFormed b e -> b <= c -> 100 < c -> c < 2 ^ 53 ->
  Tidy c (allPosts s) -> Tidy (c + 1) (allPosts (handle e s)).
Proof.
  intros Hw Hbc Hc Hc53 Hs.
  assert (Hs1 : Tidy (c + 1) (allPosts s))
    by (apply (Tidy_weaken c); [lia | exact Hs]).
  destruct e as [a|n|n|post updatedPost n|post n]; simpl.
  - apply (perform_tidy b); assumption.
  - destruct n as [data| |]; [|exact Hs1|exact Hs1].
    destruct Hw as [Hd Hb]. apply (Tidy_weaken b); [lia|]. split; assumption.
  - destruct n as [created| |]; [|exact Hs1|exact Hs1].
    apply next_create_tidy; assumption.
  - destruct n as [r| |]; [|exact Hs1|exact Hs1].
    apply (Tidy_weaken c); [lia|]. apply next_update_tidy; assumption.
  - destruct n as [u| |]; [|exact Hs1|exact Hs1].
    apply (Tidy_weaken c); [lia|]. apply next_delete_tidy. exact Hs.
Qed.

Lemma run_distinct (b : Z) (events : list Event) :
  forall (c : Z) (s : State),
    Forall (WellFormed b) events -> b <= c -> 100 < c ->
    c + Z.of_nat (length events) < 2 ^ 53 ->
    Tidy c (allPosts s) -> DistinctIds (allPosts (run events s)).
Proof.
  induction events as [|e events IH]; intros c s Hw Hbc Hc Hlen Hs.
  - exact (proj1 Hs).
  - apply Forall_cons in Hw as [He Hw]. cbn [run fold_left].
    change (DistinctIds (allPosts (run events (handle e s)))).
    cbn [length] in Hlen. rewrite Nat2Z.inj_succ in Hlen.
    apply (IH (c + 1)); [exact Hw|lia|lia|lia|].
    apply (handle_tidy b); [exact He|lia|lia|lia|exact Hs].
Qed.

(** X10: identifiers stay distinct within the safe integers.  When every
    list that the remote service returns for Load has distinct identifiers
    below a bound [b] above 100, the entries of the mirror have distinct
    identifiers after any sequence of operations and callbacks, as long as
    [b] plus the number of events is below 2^53: Submit-create adds an
    identifier that no entry has, Submit-update keeps the identifiers,
    Delete only removes entries. *)
Theorem ids_stay_distinct (b : Z) (events : list Event) :
  100 < b -> b + Z.of_nat (length events) < 2 ^ 53 ->
  Forall (WellFormed b) events ->
  DistinctIds (allPosts (run events initial)).
Proof.
  intros Hb Hlen Hw.
  apply (run_distinct b events b initial Hw); [lia|exact Hb|exact Hlen|].
  split; [constructor | intros p []].
Qed.

Lemma ids_stay_distinct_witness :
  Forall (WellFormed 101)
    [UserDoes (OpLoad (Succeeds [numbered 1; numbered 2]));
     UserDoes (OpTypeTitle "T"); UserDoes (OpTypeBody "B");
     UserDoes (OpSubmitCreate Pending);
     UserDoes (OpDelete (numbered 1) true (Succeeds tt));
     CreateNotifies (Next (numbered 7))] /\
  DistinctIds
    (allPosts
       (run [UserDoes (OpLoad (Succeeds [numbered 1; numbered 2]));
             UserDoes (OpTypeTitle "T"); UserDoes (OpTypeBody "B");
             UserDoes (OpSubmitCreate Pending);
             UserDoes (OpDelete (numbered 1) true (Succeeds tt));
             CreateNotifies (Next (numbered 7))] initial)).
Proof.
  assert (Hw : Forall (WellFormed 101)
    [UserDoes (OpLoad (Succeeds [numbered 1; numbered 2]));
     UserDoes (OpTypeTitle "T"); UserDoes (OpTypeBody "B");
     UserDoes (OpSubmitCreate Pending);
     UserDoes (OpDelete (numbered 1) true (Succeeds tt));
     CreateNotifies (Next (numbered 7))]).
  { repeat constructor; simpl;
      try (rewrite list_elem_of_In; simpl; intuition discriminate).
    intros p [<-|[<-|[]]]; vm_compute; reflexivity. }
  split; [exact Hw|].
  apply (ids_stay_distinct 101 _); [lia | vm_compute; reflexivity | exact Hw].
Defined.

(** ** Editing and deleting *)

Lemma map_replace_self (post : Post) (l : list Post) :
  DistinctIds l -> In post l ->
  map (fun p => if strict_eq (id p) (id post) then post else p) l = l.
Proof.
  intros Hd Hin. rewrite <- (map_id l) at 2. apply map_ext_in.
  intros p Hp. destruct (strict_eq (id p) (id post)) eqn:E; [|reflexivity].
  apply strict_eq_true in E. symmetry.
  exact (DistinctIds_same_id l p post Hd Hp Hin E).
Qed.

(** X11: Begin-edit of an entry of the mirror followed at once by a
    successful Submit-update, nothing having been typed, sends a PUT to the
    resource of the entry with the entry itself as body and leaves the
    mirror as it was, provided the identifiers of the mirror are distinct
    and the title and body of the entry pass the validation. *)
Theorem edit_then_submit_unchanged (s : State) (post r : Post) :
  In post (allPosts s) -> DistinctIds (allPosts s) ->
  (0 < String.length (title post) <= 100)%nat ->
  (0 < String.length (body post) <= 500)%nat ->
  allPosts (update (Succeeds r) (editPost post s)) = allPosts s /\
  requests (update (Succeeds r) (editPost post s)) =
    (requests s ++
     [PostsService.PUT (PostsService.resource (id post)) post])%list.
Proof.
  intros Hin Hd Ht Hb.
  assert (Hv : ValidInput (form (editPost post s)) (title post) (body post)).
  { unfold ValidInput. simpl. repeat split; lia. }
  pose proof (ValidInput_form_valid _ _ _ Hv) as Hf.
  assert (He : editingPost (editPost post s) = Some post) by reflexivity.
  split.
  - rewrite (update_success_allPosts _ post r He Hf).
    change (allPosts (editPost post s)) with (allPosts s).
    destruct Hv as (-> & -> & _). simpl.
    replace (edited post (title post) (body post)) with post
      by (destruct post; reflexivity).
    apply map_replace_self; assumption.
  - unfold update. rewrite He, Hf. destruct Hv as (-> & -> & _).
    method_body. frame_filter. simpl. destruct post; reflexivity.
Qed.

Lemma edit_then_submit_unchanged_witness :
  allPosts (update (Succeeds (numbered 2))
              (editPost (numbered 2) (typed [numbered 1; numbered 2] "" "")))
  = [numbered 1; numbered 2].
Proof.
  apply (edit_then_submit_unchanged
           (typed [numbered 1; numbered 2] "" "") (numbered 2) (numbered 2)).
  - right; left; reflexivity.
  - repeat constructor; rewrite list_elem_of_In; simpl; intuition discriminate.
  - simpl. lia.
  - simpl. lia.
Defined.

(** X12: Delete of an entry that has no identifier addresses the resource
    named undefined and, when the call succeeds, removes from the mirror
    every entry without identifier and no other. *)
Theorem delete_without_id (s : State) (post : Post) :
  id post = None ->
  requests (delete post true (Succeeds tt) s) =
    (requests s ++
     [PostsService.DELETE
        "https://jsonplaceholder.typicode.com/posts/undefined"])%list /\
  Retains (fun p => id p <> None) (allPosts s)
          (allPosts (delete post true (Succeeds tt) s)).
Proof.
  intros Hn. split.
  - unfold delete, PostsService.delete. rewrite Hn. method_body. simpl.
    frame_filter. reflexivity.
  - rewrite delete_success_allPosts, Hn. apply filter_Retains.
    intros p. rewrite negb_true_iff, <- strict_eq_true.
    destruct (strict_eq (id p) None); split; congruence.
Qed.

Lemma delete_without_id_witness :
  requests (delete (mkPost None 1 "t" "b") true (Succeeds tt)
              (typed [numbered 1; mkPost None 1 "t" "b"] "" "")) =
    [PostsService.GET PostsService.apiUrl;
     PostsService.DELETE
       "https://jsonplaceholder.typicode.com/posts/undefined"].
Proof.
  apply (proj1 (delete_without_id
                  (typed [numbered 1; mkPost None 1 "t" "b"] "" "")
                  (mkPost None 1 "t" "b") eq_refl)).
Defined.

(** ** Searching *)

(** What [search] leaves: the lowercased input as the term, the list the
    filter gives for it, and the count message unless the term is blank. *)
Lemma search_state (input : string) (s : State) :
  search input s =
    let term := JS.toLowerCase input in
    let shown :=
      if JS.truthy (JS.trim term)
      then List.filter (filter_callback term) (allPosts s)
      else allPosts s in
    set_message
      (if JS.truthy (JS.trim term)
       then Some (Found (length shown) term) else None)
      (set_posts shown (set_searchTerm term s)).
Proof.
  unfold search, applyCurrentFilter, andThen. simpl.
  destruct (JS.truthy (JS.trim (JS.toLowerCase input))); reflexivity.
Qed.

Lemma search_posts (input : string) (s : State) :
  posts (search input s) =
    if JS.truthy (JS.trim (JS.toLowerCase input))
    then List.filter (filter_callback (JS.toLowerCase input)) (allPosts s)
    else allPosts s.
Proof. rewrite search_state. reflexivity. Qed.

Lemma clearSearch_state (s : State) :
  clearSearch s =
    set_message None (set_posts (allPosts s) (set_searchTerm EmptyString s)).
Proof. reflexivity. Qed.

(** X13: Search takes its input without regard to letter case, and
    searching the same text a second time changes nothing. *)
Theorem search_ignores_case_and_repeats (input : string) (s : State) :
  search (JS.toLowerCase input) s = search input s /\
  search input (search input s) = search input s.
Proof.
  split.
  - rewrite !search_state, toLowerCase_idem. reflexivity.
  - rewrite (search_state input (search input s)), (search_state input s).
    destruct s. reflexivity.
Qed.

(** X14: Clear-search shows the whole mirror again, whatever was searched
    before: Search followed by Clear-search gives the state that
    Clear-search alone gives, in which the displayed list is the mirror. *)
Theorem clearSearch_undoes_search (input : string) (s : State) :
  clearSearch (search input s) = clearSearch s /\
  posts (clearSearch s) = allPosts s /\
  searchTerm (clearSearch s) = EmptyString.
Proof.
  split; [|split; reflexivity].
  rewrite !clearSearch_state, search_state. destruct s. reflexivity.
Qed.

Lemma handle_searchTerm (e : Event) (s : State) :
  searchTerm (handle e s) = searchTerm s \/
  exists input : string, searchTerm (handle e s) = JS.toLowerCase input.
Proof.
  destruct e as [a|n|n|post updatedPost n|post n]; simpl.
  - destruct a as [http|http|http|post confirmed http|input| |post|
                  |text|text]; simpl.
    + left. destruct http; reflexivity.
    + left. unfold create. destruct (form_invalid (form s)); [reflexivity|].
      destruct http; method_body; frame_filter; reflexivity.
    + left. unfold update. destruct (editingPost s); [|reflexivity].
      destruct (form_invalid (form s)); [reflexivity|].
      destruct http; method_body; frame_filter; reflexivity.
    + left. unfold delete. destruct confirmed; [|reflexivity].
      destruct http; method_body; frame_filter; reflexivity.
    + right. exists input. rewrite search_state. reflexivity.
    + right. exists EmptyString. reflexivity.
    + left. reflexivity.
    + left. reflexivity.
    + left. reflexivity.
    + left. reflexivity.
  - left. destruct n; reflexivity.
  - left. destruct n; method_body; frame_filter; reflexivity.
  - left. destruct n; method_body; frame_filter; reflexivity.
  - left. destruct n; method_body; frame_filter; reflexivity.
Qed.

(** X15: the stored search term is always in lower case: after any sequence
    of operations and callbacks, lowercasing it gives it back.  The filter
    therefore compares the same text with the titles and bodies as with the
    identifiers. *)
Theorem searchTerm_is_lowercase (events : list Event) :
  JS.toLowerCase (searchTerm (run events initial)) =
  searchTerm (run events initial).
Proof.
  assert (H : forall s : State,
            JS.toLowerCase (searchTerm s) = searchTerm s ->
            JS.toLowerCase (searchTerm (run events s)) =
            searchTerm (run events s)).
  { induction events as [|e events IH]; intros s Hs; simpl; [exact Hs|].
    apply IH. destruct (handle_searchTerm e s) as [->|[input ->]];
      [exact Hs | apply toLowerCase_idem]. }
  apply H. reflexivity.
Qed.

Lemma search_shows (input : string) (s : State) (p : Post) :
  In p (allPosts s) ->
  Blank input \/ Matches (JS.toLowerCase input) p ->
  In p (posts (search input s)).
Proof.
  intros Hin Hm. rewrite search_posts.
  destruct (JS.truthy (JS.trim (JS.toLowerCase input))) eqn:E; [|exact Hin].
  apply filter_In. split; [exact Hin|]. apply filter_callback_Matches.
  destruct Hm as [Hb|Hm]; [|exact Hm].
  apply Blank_toLowerCase, trim_falsy_Blank in Hb. congruence.
Qed.

(** X16: searching the decimal text of an entry's identifier, or of its
    owner id, always shows that entry, for an identifier and an owner id
    that are safe integers (the numbers whose [toString()] is the decimal
    text). *)
Theorem search_finds_by_number (s : State) (p : Post) :
  In p (allPosts s) ->
  (forall n : Z, id p = Some n -> Safe n ->
     In p (posts (search (JS.Number_toString n) s))) /\
  (Safe (userId p) ->
   In p (posts (search (JS.Number_toString (userId p)) s))).
Proof.
  intros Hin. split.
  - intros n Hn _. apply search_shows; [exact Hin|]. right.
    rewrite Number_toString_lower. right; right; left.
    exists n. split; [exact Hn | apply Substring_refl].
  - intros _. apply search_shows; [exact Hin|]. right.
    rewrite Number_toString_lower. right; right; right.
    apply Substring_refl.
Qed.

Lemma search_finds_by_number_witness :
  Safe (userId hello) /\
  In hello (posts (search "3" (typed [numbered 1; hello] "" ""))).
Proof.
  assert (Hs : Safe (userId hello)) by (unfold Safe; simpl; lia).
  split; [exact Hs|].
  exact (proj2 (search_finds_by_number (typed [numbered 1; hello] "" "")
                  hello (or_intror (or_introl eq_refl))) Hs).
Defined.

(** X17: Search matches text without regard to letter case: an entry of
    the mirror whose title or body contains the input, letter case apart,
    is displayed. *)
Theorem search_finds_text (input : string) (s : State) (p : Post) :
  In p (allPosts s) ->
  Substring (JS.toLowerCase input) (JS.toLowerCase (title p)) \/
  Substring (JS.toLowerCase input) (JS.toLowerCase (body p)) ->
  In p (posts (search input s)).
Proof.
  intros Hin Hs. apply search_shows; [exact Hin|]. right.
  unfold Matches. rewrite toLowerCase_idem. tauto.
Qed.

Lemma search_finds_text_witness :
  In hello (posts (search "ELLO" (typed [numbered 1; hello] "" ""))).
Proof.
  apply (search_finds_text "ELLO" (typed [numbered 1; hello] "" "") hello).
  - right; left; reflexivity.
  - left. exists "h", EmptyString. reflexivity.
Defined.

Lemma filter_sublist_mono {A : Type} (f g : A -> bool) (l : list A) :
  (forall x : A, f x = true -> g x = true) ->
  sublist (List.filter f l) (List.filter g l).
Proof.
  intros Hfg. induction l as [|x l IH]; simpl; [constructor|].
  destruct (f x) eqn:Ef.
  - rewrite (Hfg x Ef). apply sublist_skip, IH.
  - destruct (g x); [apply sublist_cons, IH | exact IH].
Qed.

Lemma Matches_mono (a b : string) (p : Post) :
  Substring a b -> Matches b p -> Matches a p.
Proof.
  intros Hab. pose proof (Substring_toLowerCase a b Hab) as Hl.
  unfold Matches. intros [H|[H|[(n & Hn & H)|H]]].
  - left. exact (Substring_trans _ _ _ Hl H).
  - right; left. exact (Substring_trans _ _ _ Hl H).
  - right; right; left. exists n. split; [exact Hn|].
    exact (Substring_trans _ _ _ Hab H).
  - right; right; right. exact (Substring_trans _ _ _ Hab H).
Qed.

(** X18: for texts whose characters are all in U+0000..U+00FF (the strings
    of this development: the inputs, the titles and the bodies), refining a
    search narrows it: when the text searched first occurs in the text
    searched next (as when the user types on), the list displayed for the
    second is a sublist of the list displayed for the first. *)
Theorem refining_search_narrows (t1 t2 : string) (s : State) :
  Substring t1 t2 ->
  sublist (posts (search t2 s)) (posts (search t1 s)).
Proof.
  intros H12. pose proof (Substring_toLowerCase t1 t2 H12) as Hl.
  rewrite !search_posts.
  destruct (JS.truthy (JS.trim (JS.toLowerCase t2))) eqn:E2;
    destruct (JS.truthy (JS.trim (JS.toLowerCase t1))) eqn:E1.
  - apply filter_sublist_mono. intros p.
    rewrite !filter_callback_Matches. apply Matches_mono. exact Hl.
  - apply List_filter_sublist.
  - apply trim_falsy_Blank in E2.
    pose proof (Substring_Blank _ _ Hl E2) as Hb.
    apply trim_falsy_Blank in Hb. congruence.
  - reflexivity.
Qed.

Lemma refining_search_narrows_witness :
  sublist (posts (search "hello" (typed [numbered 1; hello] "" "")))
          (posts (search "ell" (typed [numbered 1; hello] "" ""))).
Proof.
  apply (refining_search_narrows "ell" "hello").
  exists "h", "o". reflexivity.
Defined.

(** ** The resources of the service *)

(** X19: the service addresses different identifiers by different URLs,
    and none of them by the URL that a missing identifier gives, for
    identifiers that are safe integers (the numbers that the template
    literal prints in decimal). *)
Theorem resource_distinguishes (a b : option Z) :
  (forall n : Z, a = Some n -> Safe n) ->
  (forall n : Z, b = Some n -> Safe n) ->
  a <> b -> PostsService.resource a <> PostsService.resource b.
Proof.
  intros _ _ Hab Heq. apply Hab. unfold PostsService.resource in Heq.
  apply append_inj_r, append_inj_r in Heq.
  assert (Hu : forall n : Z, JS.Number_toString n <> "undefined").
  { intros n Hn. pose proof (Number_toString_parse n) as Hp.
    rewrite Hn in Hp. discriminate Hp. }
  destruct a as [x|], b as [y|].
  - f_equal. apply Number_toString_inj. exact Heq.
  - destruct (Hu x Heq).
  - destruct (Hu y (eq_sym Heq)).
  - reflexivity.
Qed.

Lemma resource_distinguishes_witness :
  Safe 1 /\ Safe 11 /\ Some 1 <> Some 11 /\
  PostsService.resource (Some 1) <> PostsService.resource (Some 11).
Proof.
  assert (H1 : Safe 1) by (unfold Safe; lia).
  assert (H11 : Safe 11) by (unfold Safe; lia).
  assert (H : Some 1 <> Some 11) by discriminate.
  split; [exact H1|]. split; [exact H11|]. split; [exact H|].
  apply (resource_distinguishes (Some 1) (Some 11)); [| |exact H].
  - intros n Hn. injection Hn as <-. exact H1.
  - intros n Hn. injection Hn as <-. exact H11.
Defined.

(** ** Row keys *)

Lemma row_keys_ids (index : Z) (rows : list Post) :
  (forall p : Post, In p rows -> exists n : Z, id p = Some n /\ n <> 0) ->
  map Some (row_keys index rows) = map id rows.
Proof.
  revert index. induction rows as [|p rows IH]; intros index Hall; simpl;
    [reflexivity|].
  destruct (Hall p (or_introl eq_refl)) as (n & Hn & Hn0).
  rewrite IH by (intros q Hq; apply Hall; right; exact Hq).
  unfold trackById. rewrite Hn. destruct (Z.eqb_spec n 0); [lia|reflexivity].
Qed.

(** X20: [trackById] gives the rows of a list distinct keys, whatever the
    index of the first row, when every entry has an identifier other than 0
    and the identifiers are distinct; the key of a row is then the
    identifier of its entry. *)
Theorem row_keys_distinct (index : Z) (rows : list Post) :
  (forall p : Post, In p rows -> exists n : Z, id p = Some n /\ n <> 0) ->
  DistinctIds rows ->
  map Some (row_keys index rows) = map id rows /\
  NoDup (row_keys index rows).
Proof.
  intros Hall Hd. pose proof (row_keys_ids index rows Hall) as Hk.
  split; [exact Hk|]. unfold DistinctIds in Hd. rewrite <- Hk in Hd.
  apply NoDup_ListNoDup. apply NoDup_ListNoDup in Hd.
  exact (NoDup_map_inv Some _ Hd).
Qed.

Lemma row_keys_distinct_witness :
  NoDup (row_keys 0 [numbered 4; numbered 2]).
Proof.
  apply (row_keys_distinct 0 [numbered 4; numbered 2]).
  - simpl. intros p [<-|[<-|[]]]; eexists; split;
      try reflexivity; discriminate.
  - repeat constructor; rewrite list_elem_of_In; simpl;
      intuition discriminate.
Defined.

(** ** The displayed list and the current filter *)

Lemma applyCurrentFilter_posts_ext (s1 s2 : State) :
  allPosts s1 = allPosts s2 -> searchTerm s1 = searchTerm s2 ->
  posts (applyCurrentFilter s1) = posts (applyCurrentFilter s2).
Proof.
  intros Ha Ht. unfold applyCurrentFilter. rewrite Ha, Ht.
  destruct (negb (JS.truthy (JS.trim (searchTerm s2)))); reflexivity.
Qed.

Lemma applyCurrentFilter_fixed (s : State) :
  posts (applyCurrentFilter s) = posts s -> applyCurrentFilter s = s.
Proof.
  intros H. rewrite applyCurrentFilter_frame, H. destruct s. reflexivity.
Qed.

Lemma applyCurrentFilter_idem (s : State) :
  applyCurrentFilter (applyCurrentFilter s) = applyCurrentFilter s.
Proof.
  apply applyCurrentFilter_fixed, applyCurrentFilter_posts_ext.
  - apply applyCurrentFilter_allPosts.
  - rewrite applyCurrentFilter_frame. reflexivity.
Qed.

(** Applying the filter and then writing fields other than the two lists
    and the term leaves a state that the filter does not change. *)
Lemma filtered_then_framed (x s' : State) :
  allPosts s' = allPosts (applyCurrentFilter x) ->
  posts s' = posts (applyCurrentFilter x) ->
  searchTerm s' = searchTerm (applyCurrentFilter x) ->
  applyCurrentFilter s' = s'.
Proof.
  intros Ha Hp Ht. apply applyCurrentFilter_fixed.
  rewrite Hp, <- (applyCurrentFilter_idem x).
  apply applyCurrentFilter_posts_ext; assumption.
Qed.

(** X21: after Search, Clear-search, a successful Delete, a successful
    Submit-create and a successful Submit-update the displayed list is the
    one that the filter gives for the mirror and the stored term: applying
    the filter again changes nothing. *)
Theorem displayed_is_current (s : State) (input : string) (post r : Post) :
  applyCurrentFilter (applyCurrentFilter s) = applyCurrentFilter s /\
  applyCurrentFilter (search input s) = search input s /\
  applyCurrentFilter (clearSearch s) = clearSearch s /\
  applyCurrentFilter (delete post true (Succeeds tt) s) =
    delete post true (Succeeds tt) s /\
  (form_invalid (form s) = false ->
   applyCurrentFilter (create (Succeeds r) s) = create (Succeeds r) s) /\
  (form_invalid (form s) = false -> editingPost s = Some post ->
   applyCurrentFilter (update (Succeeds r) s) = update (Succeeds r) s).
Proof.
  split; [apply applyCurrentFilter_idem|].
  split; [|split; [|split; [|split]]].
  - unfold search, andThen.
    destruct (JS.truthy (JS.trim (JS.toLowerCase input)));
      eapply filtered_then_framed; reflexivity.
  - unfold clearSearch, andThen. eapply filtered_then_framed; reflexivity.
  - method_body. simpl. eapply filtered_then_framed; reflexivity.
  - intros Hf. unfold create. rewrite Hf. method_body.
    eapply filtered_then_framed; reflexivity.
  - intros Hf He. unfold update. rewrite He, Hf. method_body.
    eapply filtered_then_framed; reflexivity.
Qed.

(** X22: a successful Load displays every entry it fetched and keeps the
    stored search term without applying it: an entry that does not match
    a term that is not blank is displayed all the same, and the filter
    would remove it. *)
Theorem load_shows_unfiltered (s : State) (data : list Post) (p : Post) :
  In p data -> ~ Blank (searchTerm s) -> ~ Matches (searchTerm s) p ->
  searchTerm (loadAll (Succeeds data) s) = searchTerm s /\
  In p (posts (loadAll (Succeeds data) s)) /\
  ~ In p (posts (applyCurrentFilter (loadAll (Succeeds data) s))).
Proof.
  intros Hin Hnb Hnm. split; [reflexivity|]. split; [exact Hin|].
  unfold applyCurrentFilter.
  change (searchTerm (loadAll (Succeeds data) s)) with (searchTerm s).
  destruct (JS.truthy (JS.trim (searchTerm s))) eqn:E.
  - simpl. rewrite filter_In, filter_callback_Matches. tauto.
  - apply trim_falsy_Blank in E. contradiction.
Qed.

Lemma load_shows_unfiltered_witness :
  In hello (posts (loadAll (Succeeds [hello; numbered 1])
                     (search "zzz" (typed [] "" "")))) /\
  ~ In hello (posts (applyCurrentFilter
                       (loadAll (Succeeds [hello; numbered 1])
                          (search "zzz" (typed [] "" ""))))).
Proof.
  apply (load_shows_unfiltered (search "zzz" (typed [] "" ""))
           [hello; numbered 1] hello).
  - left; reflexivity.
  - apply not_Blank_cons. reflexivity.
  - intros Hm. apply filter_callback_Matches in Hm. discriminate Hm.
Defined.
